(** * The configuration store of the demo CLI ([src/commands/config.ts])

    A shallow embedding of the [config] command group: the schema tables,
    [loadConfig], [saveConfig], [validateConfigValue] and the [get], [set],
    [reset], [export] and [import] actions, together with the part of the
    JavaScript runtime they rest on (numbers, string-to-number conversions,
    property lookup, JSON text, the file system and the console).

    Conventions of the model.
    - A JavaScript number is an IEEE 754 binary64 value ([spec_float] with
      precision 53 and maximal exponent 1024).
    - A string is a [string] whose characters stand for code units below 256.
    - An object used as a dictionary is a [gmap] from property names to
      values: it records the own enumerable properties.  The order in which
      JavaScript enumerates properties is not represented; [Object_entries]
      enumerates in the order of [map_to_list].
    - Properties reached through the prototype chain ([Object.prototype]) are
      modelled where the source reads a table with a caller-supplied key.
    - A file holds either text that is not JSON or a JSON text, which is
      identified with the value it denotes.  Writing a file succeeds;
      directories and permissions are not represented.
    - An action is a function of the world (working directory, files,
      console) it starts in; what the user answers to a confirmation prompt
      is an argument of the action.
    - Terminal styling (chalk colours, emoji prefixes, box borders) is left
      out of the recorded console output. *)

From Stdlib Require Import ZArith String Ascii List Bool Lia.
From Stdlib Require Import Floats.SpecFloat.
From stdpp Require Import base option gmap strings list fin_maps pretty.

#[local] Set Warnings "-register-all".
#[local] Open Scope string_scope.

(** ** The JavaScript runtime *)

Module JS.

(** *** Numbers *)

(** A number is a binary64 value in the canonical form [binary_normalize]
    gives; the comparisons of [SpecFloat] are those of the numbers on such
    forms. *)
Definition number := spec_float.

Definition NaN : number := S754_nan.

(** The number nearest to the integer [z], rounding to even; zero gets the
    sign [negative]. *)
Definition number_of_Z (negative : bool) (z : Z) : number :=
  binary_normalize 53 1024 z 0 negative.

(** [Number.isInteger]: finite and without fractional part. *)
Definition Number_isInteger (n : number) : bool :=
  match n with
  | S754_zero _ => true
  | S754_finite _ m e =>
      (0 <=? e)%Z || (Z.pos m mod 2 ^ (- e) =? 0)%Z
  | S754_infinity _ | S754_nan => false
  end.

(** [a > b] and [a <= b] on numbers. *)
Definition gt (a b : number) : bool := SFltb b a.
Definition le (a b : number) : bool := SFleb a b.

(** *** Values *)

(** [VNative name] is the member [name] of [Object.prototype], as a read
    through the prototype chain returns it: a built-in function, or for
    [__proto__] the object [Object.prototype] itself. *)
Inductive value :=
| VNull
| VBool (b : bool)
| VNum (n : number)
| VStr (s : string)
| VArr (items : list value)
| VObj (props : gmap string value)
| VNative (name : string).

Abbreviation object := (gmap string value).

(** The property names every ordinary object inherits. *)
Definition Object_prototype_keys : list string :=
  [ "constructor"; "__defineGetter__"; "__defineSetter__"; "hasOwnProperty";
    "__lookupGetter__"; "__lookupSetter__"; "isPrototypeOf";
    "propertyIsEnumerable"; "toString"; "valueOf"; "__proto__";
    "toLocaleString" ].

Definition inherited (key : string) : bool :=
  bool_decide (key ∈ Object_prototype_keys).

(** [obj[key]]: an own property, else the inherited member, else undefined. *)
Definition Get (obj : object) (key : string) : option value :=
  match obj !! key with
  | Some v => Some v
  | None => if inherited key then Some (VNative key) else None
  end.

(** [key in obj]. *)
Definition HasProperty (obj : object) (key : string) : bool :=
  bool_decide (is_Some (obj !! key)) || inherited key.

(** [obj[key] = v] for the values this program assigns.  When [__proto__] is
    not an own property the assignment reaches the inherited setter, which
    leaves the own properties as they are. *)
Definition Assign (obj : object) (key : string) (v : value) : object :=
  if bool_decide (key = "__proto__") && bool_decide (obj !! key = None)
  then obj
  else <[key := v]> obj.

(** Own enumerable string-keyed properties, as object spread copies them. *)
Definition index_entries {A} (f : A → value) (l : list A)
  : list (string * value) :=
  imap (λ i x, (pretty i, f x)) l.

Definition char_value (c : ascii) : value := VStr (String c EmptyString).

Definition own_properties (v : value) : object :=
  match v with
  | VObj props => props
  | VArr items => list_to_map (index_entries id items)
  | VStr s => list_to_map (index_entries char_value (list_ascii_of_string s))
  | VNull | VBool _ | VNum _ | VNative _ => ∅
  end.

(** [{...a, ...b}] *)
Definition spread (a : object) (b : value) : object :=
  own_properties b ∪ a.

Inductive exn := ENOENT | SyntaxError | TypeError.

Inductive result (A : Type) :=
| Return (a : A)
| Throw (e : exn).
Arguments Return {A} a.
Arguments Throw {A} e.

(** [Object.entries(v)] *)
Definition Object_entries (v : value) : result (list (string * value)) :=
  match v with
  | VNull => Throw TypeError
  | _ => Return (map_to_list (own_properties v))
  end.

(** *** Strings and numeric conversions *)

(** White space and line terminators among the code units below 256. *)
Definition is_white_space (c : ascii) : bool :=
  match nat_of_ascii c with
  | 9 | 10 | 11 | 12 | 13 | 32 | 160 => true
  | _ => false
  end.

Fixpoint trimStart (s : string) : string :=
  match s with
  | String c r => if is_white_space c then trimStart r else s
  | EmptyString => EmptyString
  end.

Definition trimEnd (s : string) : string :=
  String.rev (trimStart (String.rev s)).

Definition trim (s : string) : string := trimEnd (trimStart s).

(** The value of a digit in the given radix, when it is one. *)
Definition digit_value (radix : Z) (c : ascii) : option Z :=
  let n := Z.of_nat (nat_of_ascii c) in
  let d :=
    if (48 <=? n)%Z && (n <=? 57)%Z then Some (n - 48)%Z
    else if (97 <=? n)%Z && (n <=? 122)%Z then Some (n - 87)%Z
    else if (65 <=? n)%Z && (n <=? 90)%Z then Some (n - 55)%Z
    else None in
  match d with
  | Some k => if (k <? radix)%Z then Some k else None
  | None => None
  end.

Definition is_digit (radix : Z) (c : ascii) : bool :=
  bool_decide (is_Some (digit_value radix c)).

(** The longest prefix of digits, and what follows it. *)
Fixpoint span_digits (radix : Z) (s : string) : list Z * string :=
  match s with
  | String c r =>
      match digit_value radix c with
      | Some d => let '(ds, rest) := span_digits radix r in (d :: ds, rest)
      | None => ([], s)
      end
  | EmptyString => ([], EmptyString)
  end.

Definition digits_value (radix : Z) (ds : list Z) : Z :=
  fold_left (λ acc d, acc * radix + d)%Z ds 0%Z.

Definition is_empty (s : string) : bool :=
  match s with EmptyString => true | _ => false end.

Definition no_digits (ds : list Z) : bool :=
  match ds with [] => true | _ => false end.

(** An optional leading sign: whether it is a minus, and the rest. *)
Definition strip_sign (s : string) : bool * string :=
  match s with
  | String "+" r => (false, r)
  | String "-" r => (true, r)
  | _ => (false, s)
  end.

(** A radix prefix [0x], [0o] or [0b] in either case. *)
Definition strip_radix_prefix (s : string) : option (Z * string) :=
  match s with
  | String "0" (String c r) =>
      if bool_decide (c = "x"%char ∨ c = "X"%char) then Some (16%Z, r)
      else if bool_decide (c = "o"%char ∨ c = "O"%char) then Some (8%Z, r)
      else if bool_decide (c = "b"%char ∨ c = "B"%char) then Some (2%Z, r)
      else None
  | _ => None
  end.

(** ExponentPart(opt) up to the end of the string. *)
Definition exponent_to_end (s : string) : bool :=
  match s with
  | EmptyString => true
  | String c r =>
      if bool_decide (c = "e"%char ∨ c = "E"%char) then
        let '(ds, rest) := span_digits 10 (snd (strip_sign r)) in
        negb (no_digits ds) && is_empty rest
      else false
  end.

(** StrUnsignedDecimalLiteral, matching the whole string. *)
Definition unsigned_decimal_literal (s : string) : bool :=
  if bool_decide (s = "Infinity") then true
  else
    let '(int_part, r1) := span_digits 10 s in
    match r1 with
    | String "." r2 =>
        let '(frac_part, r3) := span_digits 10 r2 in
        negb (no_digits int_part && no_digits frac_part) && exponent_to_end r3
    | _ => negb (no_digits int_part) && exponent_to_end r1
    end.

(** NonDecimalIntegerLiteral, matching the whole string. *)
Definition non_decimal_literal (s : string) : bool :=
  match strip_radix_prefix s with
  | Some (radix, r) =>
      let '(ds, rest) := span_digits radix r in
      negb (no_digits ds) && is_empty rest
  | None => false
  end.

(** [isNaN(Number(s))]: the string, trimmed, is neither empty nor a
    StringNumericLiteral. *)
Definition isNaN_Number (s : string) : bool :=
  let t := trim s in
  negb (is_empty t
        || non_decimal_literal t
        || unsigned_decimal_literal (snd (strip_sign t))).

(** [isNaN(parseFloat(s))]: no prefix of the string, trimmed at its start,
    is a StrDecimalLiteral. *)
Definition isNaN_parseFloat (s : string) : bool :=
  let u := snd (strip_sign (trimStart s)) in
  negb (String.prefix "Infinity" u
        || match u with
           | String "." (String c _) => is_digit 10 c
           | String c _ => is_digit 10 c
           | EmptyString => false
           end).

(** [parseInt(s)] without a radix argument. *)
Definition parseInt (s : string) : number :=
  let '(negative, u) := strip_sign (trimStart s) in
  let '(radix, body) :=
    match strip_radix_prefix u with
    | Some (16%Z, r) => (16%Z, r)
    | _ => (10%Z, u)
    end in
  let '(ds, _) := span_digits radix body in
  if no_digits ds then NaN
  else
    let z := digits_value radix ds in
    number_of_Z negative (if negative then - z else z)%Z.

(** *** JSON text *)

(** What [JSON.parse(JSON.stringify(v))] is: [None] where [JSON.stringify]
    gives undefined.  Functions are left out of objects and become null in
    arrays, NaN and the infinities become null, the sign of zero is lost. *)
Fixpoint to_json (v : value) : option value :=
  match v with
  | VNum (S754_nan | S754_infinity _) => Some VNull
  | VNum (S754_zero _) => Some (VNum (S754_zero false))
  | VArr items => Some (VArr (map (λ x, default VNull (to_json x)) items))
  | VObj props => Some (VObj (omap to_json props))
  | VNative name =>
      if bool_decide (name = "__proto__") then Some (VObj ∅) else None
  | VNull | VBool _ | VNum (S754_finite _ _ _) | VStr _ => Some v
  end.

End JS.

(** ** The configuration schema and validation *)

Module Config.
Import JS.

(** [DEFAULT_CONFIG] *)
Definition DEFAULT_CONFIG : object :=
  list_to_map
    [ ("theme", VStr "default");
      ("colorOutput", VBool true);
      ("dateFormat", VStr "locale");
      ("defaultPriority", VStr "medium");
      ("autoSave", VBool true);
      ("maxItems", VNum (number_of_Z false 100));
      ("apiUrl", VStr "https://api.example.com");
      ("timeout", VNum (number_of_Z false 5000));
      ("language", VStr "en");
      ("debug", VBool false) ].

(** The keys of the schema, in the order of the source. *)
Definition schema_keys : list string :=
  [ "theme"; "colorOutput"; "dateFormat"; "defaultPriority"; "autoSave";
    "maxItems"; "apiUrl"; "timeout"; "language"; "debug" ].

(** [list.includes(val)] for a list of strings. *)
Definition includes (choices : list string) (val : value) : bool :=
  match val with
  | VStr s => bool_decide (s ∈ choices)
  | _ => false
  end.

Definition is_boolean (val : value) : bool :=
  match val with VBool _ => true | _ => false end.

(** The [validators] table of [validateConfigValue]. *)
Definition validators : gmap string (value → bool) :=
  list_to_map
    [ ("theme", includes ["default"; "dark"; "light"; "rainbow"]);
      ("colorOutput", is_boolean);
      ("dateFormat", includes ["locale"; "iso"; "us"; "eu"]);
      ("defaultPriority", includes ["low"; "medium"; "high"; "urgent"]);
      ("autoSave", is_boolean);
      ("maxItems", λ val,
         match val with
         | VNum n => Number_isInteger n && gt n (number_of_Z false 0)
                     && le n (number_of_Z false 1000)
         | _ => false
         end);
      ("apiUrl", λ val,
         match val with
         | VStr s => bool_decide (0 < String.length s)
         | _ => false
         end);
      ("timeout", λ val,
         match val with
         | VNum n => Number_isInteger n && gt n (number_of_Z false 0)
         | _ => false
         end);
      ("language", includes ["en"; "es"; "fr"; "de"; "it"]);
      ("debug", is_boolean) ].

(** The [suggestions] table of [validateConfigValue]. *)
Definition suggestions : gmap string string :=
  list_to_map
    [ ("theme", "Must be one of: default, dark, light, rainbow");
      ("colorOutput", "Must be true or false");
      ("dateFormat", "Must be one of: locale, iso, us, eu");
      ("defaultPriority", "Must be one of: low, medium, high, urgent");
      ("autoSave", "Must be true or false");
      ("maxItems", "Must be a number between 1 and 1000");
      ("apiUrl", "Must be a valid URL string");
      ("timeout", "Must be a positive number");
      ("language", "Must be one of: en, es, fr, de, it");
      ("debug", "Must be true or false") ].

(** A member of [Object.prototype] called as [validator(val)], that is with
    an undefined receiver: whether the result is truthy, or the TypeError.
    [Object] and [toString] return an object and a string; [isPrototypeOf]
    answers false for a primitive before it looks at the receiver; every
    other member converts the receiver first, and [__proto__] is no
    function. *)
Definition call_inherited (name : string) (val : value) : result bool :=
  if bool_decide (name = "constructor" ∨ name = "toString") then Return true
  else if bool_decide (name = "isPrototypeOf") then
    match val with
    | VArr _ | VObj _ | VNative _ => Throw TypeError
    | _ => Return false
    end
  else Throw TypeError.

(** [validators[key]] *)
Definition lookup_validator (key : string) : option (value → result bool) :=
  match validators !! key with
  | Some validator => Some (λ val, Return (validator val))
  | None => if inherited key then Some (call_inherited key) else None
  end.

(** [`${suggestions[key] || 'Invalid value'}`] *)
Definition suggestion (key : string) : string :=
  match suggestions !! key with
  | Some text => text
  | None =>
      if inherited key then "function " +:+ key +:+ "() { [native code] }"
      else "Invalid value"
  end.

(** The object [validateConfigValue] returns. *)
Inductive validation :=
| Valid (value : JS.value)
| Invalid (message : string).

(** The conversion of a string value at the head of [validateConfigValue]. *)
Definition convert (value : JS.value) : JS.value :=
  match value with
  | VStr s =>
      if bool_decide (s = "true") then VBool true
      else if bool_decide (s = "false") then VBool false
      else if negb (isNaN_Number s) && negb (isNaN_parseFloat s)
           then VNum (parseInt s)
      else value
  | _ => value
  end.

Definition validateConfigValue (key : string) (value : JS.value)
  : result validation :=
  match lookup_validator key with
  | None => Return (Invalid ("Unknown configuration key: " +:+ key))
  | Some validator =>
      let convertedValue := convert value in
      match validator convertedValue with
      | Throw e => Throw e
      | Return true => Return (Valid convertedValue)
      | Return false => Return (Invalid (suggestion key))
      end
  end.

End Config.

(** ** Files, console and the effects of an action *)

Module IO.
Import JS.

(** The content of a file: text that [JSON.parse] rejects, or a JSON text,
    identified with the value it denotes. *)
Inductive file_data :=
| NotJSON (text : string)
| JSONText (v : value).

(** An absolute path, as the list of its segments. *)
Definition path := list string.

(** What a panel, table or listing on the console shows. *)
Inductive shown :=
| ShownText (text : string)
| ShownValue (v : option value)
| ShownCount (n : nat).

Inductive event :=
| spinner_start (text : string)
| spinner_text (text : string)
| spinner_succeed (text : string)
| spinner_fail (text : string) (error : option exn)
| spinner_stop
| console_error (text : string) (error : option exn)
| console_log (text : string)
| console_view (title : string) (rows : list (string * shown))
| prompt_confirm (message : string) (answer : bool).

Record world := World {
  cwd : path;
  files : gmap path file_data;
  console : list event
}.

Definition io (A : Type) : Type := world → result A * world.

#[export] Instance io_ret : MRet io := λ A a w, (Return a, w).

#[export] Instance io_bind : MBind io := λ A B k m w,
  match m w with
  | (Return a, w') => k a w'
  | (Throw e, w') => (Throw e, w')
  end.

Definition throw {A} (e : exn) : io A := λ w, (Throw e, w).

Definition lift {A} (r : result A) : io A := λ w, (r, w).

(** [try { body } catch (error) { handler }] *)
Definition try_catch {A} (body : io A) (handler : exn → io A) : io A := λ w,
  match body w with
  | (Return a, w') => (Return a, w')
  | (Throw e, w') => handler e w'
  end.

Definition emit (e : event) : io unit := λ w,
  (Return tt, World (cwd w) (files w) (console w ++ [e])).

(** *** Paths *)

Fixpoint split_path (acc : string) (p : string) : list string :=
  match p with
  | EmptyString => [String.rev acc]
  | String c r =>
      if bool_decide (c = "/"%char) then String.rev acc :: split_path EmptyString r
      else split_path (String c acc) r
  end.

(** Segments are pushed on a reversed stack; [.] and empty segments are
    dropped and [..] pops. *)
Fixpoint normalize (stack : list string) (segments : list string) : path :=
  match segments with
  | [] => rev stack
  | seg :: rest =>
      if bool_decide (seg = EmptyString ∨ seg = ".") then normalize stack rest
      else if bool_decide (seg = "..") then normalize (tail stack) rest
      else normalize (seg :: stack) rest
  end.

(** [path.resolve(p)] on a POSIX system whose working directory is
    [base]. *)
Definition resolve (base : path) (p : string) : path :=
  let stack :=
    match p with
    | String "/" _ => []
    | _ => rev base
    end in
  normalize stack (split_path EmptyString p).

Definition path_resolve (p : string) : io path := λ w,
  (Return (resolve (cwd w) p), w).

(** *** [fs/promises] *)

Definition fs_readFile (p : path) : io file_data := λ w,
  match files w !! p with
  | Some data => (Return data, w)
  | None => (Throw ENOENT, w)
  end.

Definition fs_access (p : path) : io unit := λ w,
  match files w !! p with
  | Some _ => (Return tt, w)
  | None => (Throw ENOENT, w)
  end.

(** Writing is taken to succeed whenever it is given text; undefined data
    is a TypeError. *)
Definition fs_writeFile (p : path) (data : option file_data) : io unit := λ w,
  match data with
  | Some d => (Return tt, World (cwd w) (<[p := d]> (files w)) (console w))
  | None => (Throw TypeError, w)
  end.

(** *** [JSON] *)

Definition JSON_parse (data : file_data) : io value :=
  match data with
  | JSONText v => mret v
  | NotJSON _ => throw SyntaxError
  end.

Definition JSON_stringify (v : value) : option file_data :=
  JSONText <$> to_json v.

(** The status the process ends with: an action that returns leaves it at
    zero; a rejection nothing catches reaches the [unhandledRejection]
    handler of [index.ts], which exits with 1. *)
Definition exit_status (completion : result unit) : Z :=
  match completion with
  | Return _ => 0
  | Throw _ => 1
  end.

End IO.

(** ** The [config] command group *)

Module Commands.
Import JS Config IO.

(** [CONFIG_FILE] *)
Definition CONFIG_FILE : io path := path_resolve "./config.json".

(** [loadConfig].  In the source the catch branch returns the object
    [DEFAULT_CONFIG] itself, so that an assignment to the loaded
    configuration writes into it; every action is the only one of its
    process and reads [DEFAULT_CONFIG] before it assigns, which lets the
    model keep [DEFAULT_CONFIG] constant. *)
Definition loadConfig : io object :=
  try_catch
    (file ← CONFIG_FILE;
     data ← fs_readFile file;
     config ← JSON_parse data;
     mret (spread DEFAULT_CONFIG config))
    (λ error, mret DEFAULT_CONFIG).

(** [saveConfig] *)
Definition saveConfig (config : value) : io unit :=
  file ← CONFIG_FILE;
  fs_writeFile file (JSON_stringify config).

Definition dquote : string := String "034" EmptyString.

(** A string argument or option that is given and not empty, as the
    conditions [!key] and [options.key] test it. *)
Definition truthy (s : option string) : option string :=
  match s with
  | Some s => if is_empty s then None else Some s
  | None => None
  end.

Definition rows_of (config : object) : list (string * shown) :=
  (λ kv, (kv.1, ShownValue (Some kv.2))) <$> map_to_list config.

Definition join_keys (config : object) : string :=
  foldr (λ k acc, if is_empty acc then k else k +:+ ", " +:+ acc)
        EmptyString (map_to_list config).*1.

(** [config get [key]] with [--all] and [--format] *)
Definition config_get (key : option string) (all : bool) (format : string)
  : io unit :=
  emit (spinner_start "Loading configuration...");;
  try_catch
    (config ← loadConfig;
     emit (spinner_succeed "Configuration loaded!");;
     match (if all then None else truthy key) with
     | None => emit (console_view format (rows_of config))
     | Some key =>
         if negb (HasProperty config key) then
           emit (console_error
                   ("Configuration key " +:+ dquote +:+ key +:+ dquote
                    +:+ " not found!") None);;
           emit (console_log ("Available keys: " +:+ join_keys config))
         else
           emit (console_view format
                   [ ("Key", ShownText key);
                     ("Value", ShownValue (Get config key)) ])
     end)
    (λ error,
       emit (spinner_fail "Error loading configuration" (Some error))).

(** [config set <key> <value>] with [--force] *)
Definition config_set (key value : string) (force : bool) : io unit :=
  try_catch
    (config ← loadConfig;
     let update (value : JS.value) : io unit :=
       let oldValue := Get config key in
       emit (spinner_start "Updating configuration...");;
       let config := Assign config key value in
       saveConfig (VObj config);;
       emit (spinner_succeed "Configuration updated successfully!");;
       emit (console_view "Configuration updated"
               [ ("Key", ShownText key);
                 ("Old Value", ShownValue oldValue);
                 ("New Value", ShownValue (Some value)) ]) in
     if negb force then
       validation ← lift (validateConfigValue key (VStr value));
       match validation with
       | Invalid message => emit (console_error message None)
       | Valid value => update value
       end
     else update (VStr value))
    (λ error,
       emit (console_error "Error setting configuration" (Some error))).

(** The confirmation prompt of [reset] and [import]: asked unless forced;
    [answer] is what the user replies when asked. *)
Definition confirm (force : bool) (message : string) (answer : bool)
  : io bool :=
  if negb force then emit (prompt_confirm message answer);; mret answer
  else mret true.

(** [config reset] with [--key] and [--force] *)
Definition config_reset (key : option string) (force : bool) (answer : bool)
  : io unit :=
  try_catch
    (config ← loadConfig;
     match truthy key with
     | Some key =>
         if negb (HasProperty DEFAULT_CONFIG key) then
           emit (console_error ("Unknown configuration key: " +:+ key) None)
         else
           confirmed ← confirm force
             ("Reset " +:+ dquote +:+ key +:+ dquote +:+ " to default value?")
             answer;
           if negb confirmed then emit (console_log "Operation cancelled.")
           else
             let oldValue := Get config key in
             let config :=
               match Get DEFAULT_CONFIG key with
               | Some v => Assign config key v
               | None => config
               end in
             emit (spinner_start "Resetting configuration key...");;
             saveConfig (VObj config);;
             emit (spinner_succeed
                     ("Configuration key " +:+ dquote +:+ key +:+ dquote
                      +:+ " reset!"));;
             emit (console_view "Configuration key reset"
                     [ ("Key", ShownText key);
                       ("Old Value", ShownValue oldValue);
                       ("New Value", ShownValue (Get DEFAULT_CONFIG key)) ])
     | None =>
         confirmed ← confirm force
           "Reset ALL configuration to defaults? This cannot be undone."
           answer;
         if negb confirmed then emit (console_log "Operation cancelled.")
         else
           emit (spinner_start "Resetting configuration...");;
           saveConfig (VObj DEFAULT_CONFIG);;
           emit (spinner_succeed "Configuration reset to defaults!")
     end)
    (λ error,
       emit (console_error "Error resetting configuration" (Some error))).

(** [config export [filename]]: the action takes no option. *)
Definition config_export (filename : option string) : io unit :=
  let filename := default "config-export.json" filename in
  emit (spinner_start "Exporting configuration...");;
  try_catch
    (config ← loadConfig;
     exportPath ← path_resolve filename;
     fs_writeFile exportPath (JSON_stringify (VObj config));;
     emit (spinner_succeed "Configuration exported successfully!");;
     emit (console_view "Configuration exported"
             [ ("Export File", ShownText filename);
               ("Keys Exported", ShownCount (size config)) ]))
    (λ error,
       emit (spinner_fail "Error exporting configuration" (Some error))).

(** The validation loop of [import]: every entry is validated and each
    failure is pushed on [validationErrors]. *)
Fixpoint validate_each (entries : list (string * value))
    (validationErrors : list string) : result (list string) :=
  match entries with
  | [] => Return validationErrors
  | (key, value) :: rest =>
      match validateConfigValue key value with
      | Throw e => Throw e
      | Return (Invalid message) =>
          validate_each rest (validationErrors ++ [key +:+ ": " +:+ message])
      | Return (Valid _) => validate_each rest validationErrors
      end
  end.

Fixpoint log_each (lines : list string) : io unit :=
  match lines with
  | [] => mret tt
  | line :: rest => emit (console_log line);; log_each rest
  end.

(** [config import <filename>] with [--merge] and [--force] *)
Definition config_import (filename : string) (merge force : bool)
    (answer : bool) : io unit :=
  try_catch
    (importPath ← path_resolve filename;
     found ← try_catch (fs_access importPath;; mret true)
               (λ error,
                  emit (console_error ("File not found: " +:+ filename) None);;
                  mret false);
     if negb found then mret tt
     else
       emit (spinner_start "Reading import file...");;
       importData ← fs_readFile importPath;
       importConfig ← JSON_parse importData;
       emit (spinner_text "Validating configuration...");;
       entries ← lift (Object_entries importConfig);
       validationErrors ← lift (validate_each entries []);
       if bool_decide (0 < length validationErrors) && negb force then
         emit (spinner_fail "Validation errors found:" None);;
         log_each validationErrors;;
         emit (console_log "Use --force to ignore validation errors.")
       else
         finalConfig ←
           (if merge then
              currentConfig ← loadConfig;
              mret (VObj (spread currentConfig importConfig))
            else mret importConfig);
         confirmed ← confirm force
           ("Import configuration from " +:+ dquote +:+ filename +:+ dquote
            +:+ "? This will "
            +:+ (if merge then "merge with" else "replace")
            +:+ " current settings.")
           answer;
         if negb confirmed then
           emit spinner_stop;;
           emit (console_log "Operation cancelled.")
         else
           emit (spinner_text "Importing configuration...");;
           saveConfig finalConfig;;
           emit (spinner_succeed "Configuration imported successfully!");;
           emit (console_view "Configuration imported"
                   [ ("Import File", ShownText filename);
                     ("Mode", ShownText (if merge then "Merge" else "Replace"));
                     ("Keys Imported",
                      ShownCount (size (own_properties importConfig)));
                     ("Total Keys",
                      ShownCount (size (own_properties finalConfig))) ]))
    (λ error,
       emit (console_error "Error importing configuration" (Some error))).

(** The [descriptions] table of [list]. *)
Definition descriptions : gmap string string :=
  list_to_map
    [ ("theme", "Visual theme for the CLI interface");
      ("colorOutput", "Enable or disable colored terminal output");
      ("dateFormat", "Default date format for displaying dates");
      ("defaultPriority", "Default priority level for new tasks");
      ("autoSave", "Automatically save changes without confirmation");
      ("maxItems", "Maximum number of items to display in lists");
      ("apiUrl", "Base URL for API requests");
      ("timeout", "Network request timeout in milliseconds");
      ("language", "Interface language code");
      ("debug", "Enable debug mode for troubleshooting") ].

(** [`${descriptions[key] || 'No description available'}`]: an inherited
    member is truthy and is printed in its place. *)
Definition description (key : string) : string :=
  match descriptions !! key with
  | Some text => text
  | None =>
      if bool_decide (key = "__proto__") then "[object Object]"
      else if inherited key then "function " +:+ key +:+ "() { [native code] }"
      else "No description available"
  end.

(** What [list] shows for one entry: the value under the key, then the
    description. *)
Definition list_entry (entry : string * value) : list (string * shown) :=
  [ (entry.1, ShownValue (Some entry.2));
    ("Description", ShownText (description entry.1)) ].

(** [config list] with [--format].  The rows are printed with
    [String(value)], which calls no method of a value that is neither an
    object nor an array; the view stands for the printing of such
    documents. *)
Definition config_list (format : string) : io unit :=
  emit (spinner_start "Loading configuration...");;
  try_catch
    (config ← loadConfig;
     emit (spinner_succeed "Configuration loaded!");;
     emit (console_log "Configuration Settings:");;
     emit (console_view format (map_to_list config ≫= list_entry)))
    (λ error,
       emit (spinner_fail "Error loading configuration" (Some error))).

(** [config setup].  [answers] is the object [inquirer.prompt] resolves to
    for the seven questions (theme, colorOutput, dateFormat,
    defaultPriority, maxItems, autoSave, debug). *)
Definition config_setup (answers : object) : io unit :=
  emit (console_log "Interactive Configuration Setup");;
  try_catch
    (currentConfig ← loadConfig;
     emit (spinner_start "Saving configuration...");;
     let newConfig := spread currentConfig (VObj answers) in
     saveConfig (VObj newConfig);;
     emit (spinner_succeed "Configuration saved successfully!");;
     emit (console_log "Configuration Complete!");;
     emit (console_view "Setting" (rows_of answers)))
    (λ error,
       emit (console_error "Error in configuration setup" (Some error))).

End Commands.

(** ** Notions the properties are stated with *)

Module Notions.
Import JS Config IO Commands.

(** The path of the configuration file in a world. *)
Definition config_file (w : world) : path := resolve (cwd w) "./config.json".

(** The document a world holds, that is what [loadConfig] returns in it
    (lemma [loadConfig_run]): the defaults overlaid with what the
    configuration file contributes. *)
Definition document (w : world) : object :=
  match files w !! config_file w with
  | Some (JSONText config) => spread DEFAULT_CONFIG config
  | Some (NotJSON _) | None => DEFAULT_CONFIG
  end.

(** A document validation accepts: it has exactly the keys of the schema,
    and each of its values passes the validation of its key, the check
    [import] applies to every entry, which converts the value first. *)
Definition valid_document (D : object) : Prop :=
  (∀ k, k ∈ schema_keys ↔ is_Some (D !! k))
  ∧ (∀ k v, D !! k = Some v →
       ∃ v', validateConfigValue k v = Return (Valid v')).

(** Whether a value satisfies the validator of a key: the function of the
    [validators] table, applied to the value as it is stored. *)
Definition satisfies_validator (k : string) (v : value) : bool :=
  match validators !! k with
  | Some validator => validator v
  | None => false
  end.

(** A configuration document as the specification words its invariant:
    fully populated with the keys of the schema, and every value satisfies
    its key's validator.  [valid_document] asks instead that validation,
    which converts first, accept every value. *)
Definition satisfies_validators (D : object) : Prop :=
  (∀ k, k ∈ schema_keys ↔ is_Some (D !! k))
  ∧ (∀ k v, D !! k = Some v → satisfies_validator k v = true).

(** An object whose values are all JSON values: serialising and parsing
    gives it back. *)
Definition json_object (m : object) : Prop := omap to_json m = m.

(** The configuration [import] saves: the imported value itself, or in
    merge mode the current document overlaid with it. *)
Definition final_config (merge : bool) (w : world) (importConfig : value)
  : value :=
  if merge then VObj (spread (document w) importConfig) else importConfig.

(** The error line [import] pushes for an entry that fails validation. *)
Definition entry_error (entry : string * value) : option string :=
  match validateConfigValue entry.1 entry.2 with
  | Return (Invalid message) => Some (entry.1 +:+ ": " +:+ message)
  | Return (Valid _) | Throw _ => None
  end.

(** A string of white space only; the empty string is one. *)
Fixpoint white_space_only (s : string) : bool :=
  match s with
  | EmptyString => true
  | String c r => is_white_space c && white_space_only r
  end.

(** A process in a directory with no configuration file. *)
Definition fresh : world := World ["home"; "demo"] ∅ [].

(** A store whose configuration file sets the theme. *)
Definition themed : world :=
  World ["home"; "demo"]
    {[ ["home"; "demo"; "config.json"] :=
         JSONText (VObj {[ "theme" := VStr "dark" ]}) ]}
    [].

(** Another directory, which holds a copy of what [export] writes for
    [themed] and no configuration file. *)
Definition restored : world :=
  World ["srv"; "app"]
    {[ ["srv"; "app"; "backup.json"] :=
         JSONText (VObj (<["theme" := VStr "dark"]> DEFAULT_CONFIG)) ]}
    [].

(** The store [themed] with a file to import that sets the language. *)
Definition with_language : world :=
  World ["home"; "demo"]
    (<[ ["home"; "demo"; "language.json"] :=
          JSONText (VObj {[ "language" := VStr "fr" ]}) ]> (files themed))
    [].

(** An import file with one valid and one invalid entry. *)
Definition mixed : object :=
  {[ "theme" := VStr "dark"; "colorOutput" := VStr "notabool" ]}.

Definition with_mixed : world :=
  World ["home"; "demo"]
    {[ ["home"; "demo"; "settings.json"] := JSONText (VObj mixed) ]}
    [].

(** A store whose configuration file sets the URL of the API to a
    numeral. *)
Definition numeral_url : world :=
  World ["home"; "demo"]
    {[ ["home"; "demo"; "config.json"] :=
         JSONText (VObj {[ "apiUrl" := VStr "8080" ]}) ]}
    [].

(** Another directory, which holds a copy of what [export] writes for
    [numeral_url] and no configuration file. *)
Definition copied : world :=
  World ["srv"; "app"]
    {[ ["srv"; "app"; "backup.json"] :=
         JSONText (VObj (<["apiUrl" := VStr "8080"]> DEFAULT_CONFIG)) ]}
    [].

(** An action that leaves the working directory [dir] as it is and writes
    no file outside [allowed]. *)
Definition confined {A} (dir : path) (allowed : path → Prop) (m : io A)
  : Prop :=
  ∀ w, cwd w = dir →
    cwd (m w).2 = dir
    ∧ ∀ p, ¬ allowed p → files (m w).2 !! p = files w !! p.

(** A value that is neither an object nor an array: [String(value)]
    converts it without calling a method of the value, so it cannot
    throw. *)
Definition primitive (v : value) : bool :=
  match v with
  | VObj _ | VArr _ => false
  | _ => true
  end.

(** The keys whose validator is a list of strings, with the list. *)
Definition enum_keys : list (string * list string) :=
  [ ("theme", ["default"; "dark"; "light"; "rainbow"]);
    ("dateFormat", ["locale"; "iso"; "us"; "eu"]);
    ("defaultPriority", ["low"; "medium"; "high"; "urgent"]);
    ("language", ["en"; "es"; "fr"; "de"; "it"]) ].

(** The keys whose validator asks for a boolean. *)
Definition boolean_keys : list string := ["colorOutput"; "autoSave"; "debug"].

(** The decimal numeral of an integer, as one types it on the command
    line. *)
Definition numeral (z : Z) : string := pretty z.

(** What validation answers for maxItems to the numeral of [z]: the number,
    when [z] lies between 1 and 1000. *)
Definition maxItems_answer (z : Z) : validation :=
  if ((1 <=? z) && (z <=? 1000))%Z then Valid (VNum (number_of_Z false z))
  else Invalid "Must be a number between 1 and 1000".

(** The same for timeout: the number, when [z] is at least 1. *)
Definition timeout_answer (z : Z) : validation :=
  if (1 <=? z)%Z then Valid (VNum (number_of_Z false z))
  else Invalid "Must be a positive number".

(** Equality of two numbers as forms, for checks by computation. *)
Definition number_eqb (a b : number) : bool :=
  match a, b with
  | S754_zero s, S754_zero s' => Bool.eqb s s'
  | S754_infinity s, S754_infinity s' => Bool.eqb s s'
  | S754_nan, S754_nan => true
  | S754_finite s m e, S754_finite s' m' e' =>
      Bool.eqb s s' && (m =? m')%positive && (e =? e')%Z
  | _, _ => false
  end.

(** Whether a validation gave the expected answer, for answers that are a
    number or a failure. *)
Definition answers_with (r : result validation) (expected : validation)
  : bool :=
  match r, expected with
  | Return (Valid (VNum a)), Valid (VNum b) => number_eqb a b
  | Return (Invalid m), Invalid m' => String.eqb m m'
  | _, _ => false
  end.

(** The integers from -1000 to 5000. *)
Definition numerals_checked : list Z :=
  (λ n, Z.of_nat n - 1000)%Z <$> seq 0 (Z.to_nat 6001).

End Notions.

(** ** Properties of the configuration store *)

Module Properties.
Import JS Config IO Commands Notions.

(** *** Running the effects *)

Ltac run_io :=
  cbv beta iota zeta delta
    [mbind io_bind mret io_ret try_catch emit lift throw path_resolve
     fs_readFile fs_access fs_writeFile JSON_parse CONFIG_FILE].

Lemma loadConfig_run (w : world) : loadConfig w = (Return (document w), w).
Proof.
  unfold loadConfig, document, config_file. run_io.
  destruct w as [dir fs out]; simpl.
  destruct (fs !! resolve dir "./config.json") as [[text|config]|];
    reflexivity.
Qed.

Lemma saveConfig_run (config : value) (w : world) :
  saveConfig config w =
    match to_json config with
    | Some json =>
        (Return tt,
         World (cwd w) (<[config_file w := JSONText json]> (files w))
               (console w))
    | None => (Throw TypeError, w)
    end.
Proof.
  unfold saveConfig, JSON_stringify, config_file. run_io.
  destruct (to_json config); reflexivity.
Qed.

(** *** The schema *)

Lemma dom_DEFAULT_CONFIG (k : string) :
  k ∈ schema_keys ↔ is_Some (DEFAULT_CONFIG !! k).
Proof.
  rewrite <- elem_of_dom. unfold DEFAULT_CONFIG.
  rewrite dom_list_to_map_L. cbn [fmap list_fmap fst schema_keys].
  rewrite elem_of_list_to_set. reflexivity.
Qed.

Lemma spread_lookup (a : object) (b : value) (k : string) :
  spread a b !! k =
    match own_properties b !! k with
    | Some v => Some v
    | None => a !! k
    end.
Proof.
  unfold spread. rewrite lookup_union.
  destruct (own_properties b !! k), (a !! k); reflexivity.
Qed.

(** [loadConfig] returns a document that has every schema key. *)
Lemma document_populated (w : world) (k : string) :
  k ∈ schema_keys → is_Some (document w !! k).
Proof.
  intros Hk. apply dom_DEFAULT_CONFIG in Hk. unfold document.
  destruct (files w !! config_file w) as [[text|config]|]; try assumption.
  rewrite spread_lookup. destruct (own_properties config !! k); eauto.
Qed.

(** C5.  Load defaulting: [loadConfig] always returns, without touching the
    world, a document in which every schema key has a value; every key the
    stored object holds keeps its stored value; and when the configuration
    file is missing or is not JSON the document is [DEFAULT_CONFIG]. *)
Theorem load_defaulting (w : world) :
  ∃ doc : object,
    loadConfig w = (Return doc, w)
    ∧ (∀ k, k ∈ schema_keys → is_Some (doc !! k))
    ∧ (∀ stored : object,
         files w !! config_file w = Some (JSONText (VObj stored)) →
         ∀ k v, stored !! k = Some v → doc !! k = Some v)
    ∧ (files w !! config_file w = None → doc = DEFAULT_CONFIG)
    ∧ (∀ text, files w !! config_file w = Some (NotJSON text) →
         doc = DEFAULT_CONFIG).
Proof.
  exists (document w). split; [apply loadConfig_run|].
  split; [intros k; apply document_populated|].
  unfold document. repeat split.
  - intros stored Hfile k v Hk. rewrite Hfile, spread_lookup.
    simpl. rewrite Hk. reflexivity.
  - intros ->. reflexivity.
  - intros text ->. reflexivity.
Qed.

(** *** [set] *)

Lemma to_json_object (m : object) :
  to_json (VObj m) = Some (VObj (omap to_json m)).
Proof. reflexivity. Qed.

(** [set] when the value is assigned: forced, or validated. *)
Lemma config_set_assigns (key value : string) (force : bool) (v : JS.value)
    (w : world) :
  (if force then v = VStr value
   else validateConfigValue key (VStr value) = Return (Valid v)) →
  let w' := (config_set key value force w).2 in
  (config_set key value force w).1 = Return tt
  ∧ cwd w' = cwd w
  ∧ files w' =
      <[config_file w :=
          JSONText (VObj (omap to_json (Assign (document w) key v)))]> (files w).
Proof.
  intros Hv. unfold config_set. run_io. rewrite loadConfig_run.
  destruct force; cbn [negb]; [subst v | rewrite Hv];
    rewrite saveConfig_run, to_json_object; repeat split; reflexivity.
Qed.

(** [set] when validation answers with a failure. *)
Lemma config_set_invalid (key value message : string) (w : world) :
  validateConfigValue key (VStr value) = Return (Invalid message) →
  config_set key value false w =
    (Return tt,
     World (cwd w) (files w) (console w ++ [console_error message None])).
Proof.
  intros Hv. unfold config_set. run_io. rewrite loadConfig_run.
  cbn [negb]. rewrite Hv. reflexivity.
Qed.

(** [set] when validation throws. *)
Lemma config_set_throws (key value : string) (e : exn) (w : world) :
  validateConfigValue key (VStr value) = Throw e →
  config_set key value false w =
    (Return tt,
     World (cwd w) (files w)
       (console w ++ [console_error "Error setting configuration" (Some e)])).
Proof.
  intros Hv. unfold config_set. run_io. rewrite loadConfig_run.
  cbn [negb]. rewrite Hv. reflexivity.
Qed.


(** *** Validation *)

Lemma validators_suggestions (key : string) :
  is_Some (validators !! key) ↔ is_Some (suggestions !! key).
Proof.
  rewrite <- !elem_of_dom. unfold validators, suggestions.
  rewrite !dom_list_to_map_L. reflexivity.
Qed.

Lemma validators_schema (key : string) :
  is_Some (validators !! key) ↔ key ∈ schema_keys.
Proof.
  rewrite <- elem_of_dom. unfold validators.
  rewrite dom_list_to_map_L, elem_of_list_to_set. reflexivity.
Qed.

(** Validation of a key that has its own validator: the validator is applied
    to the converted value. *)
Lemma validateConfigValue_own (key : string) (validator : value → bool)
    (value : JS.value) :
  validators !! key = Some validator →
  validateConfigValue key value =
    Return (if validator (convert value) then Valid (convert value)
            else Invalid (suggestion key)).
Proof.
  intros Hkey. unfold validateConfigValue, lookup_validator.
  rewrite Hkey. destruct (validator (convert value)); reflexivity.
Qed.

Lemma isNaN_Number_true_false :
  isNaN_Number "true" = true ∧ isNaN_Number "false" = true.
Proof. split; vm_compute; reflexivity. Qed.

(** The conversion turns a string into a number exactly when both numeric
    tests accept it, and then into what [parseInt] reads. *)
Lemma convert_number (s : string) :
  isNaN_Number s = false → isNaN_parseFloat s = false →
  convert (VStr s) = VNum (parseInt s).
Proof.
  intros HN HF. unfold convert.
  destruct isNaN_Number_true_false as [Ht Hf].
  repeat case_bool_decide; subst; try congruence.
  rewrite HN, HF. reflexivity.
Qed.

Lemma convert_to_number (s : string) (n : number) :
  convert (VStr s) = VNum n →
  isNaN_Number s = false ∧ isNaN_parseFloat s = false ∧ n = parseInt s.
Proof.
  unfold convert. repeat case_bool_decide; try discriminate.
  destruct (isNaN_Number s), (isNaN_parseFloat s); simpl; try discriminate.
  intros [= <-]. auto.
Qed.

Lemma trimStart_white_space (s : string) :
  white_space_only s = true → trimStart s = EmptyString.
Proof.
  induction s as [|c s IH]; simpl; [reflexivity|].
  destruct (is_white_space c); [exact IH | discriminate].
Qed.

Lemma isNaN_parseFloat_white_space (s : string) :
  white_space_only s = true → isNaN_parseFloat s = true.
Proof.
  intros Hs. unfold isNaN_parseFloat.
  rewrite (trimStart_white_space s Hs). reflexivity.
Qed.

Lemma convert_white_space (s : string) :
  white_space_only s = true → convert (VStr s) = VStr s.
Proof.
  intros Hs. unfold convert.
  repeat case_bool_decide; subst; try discriminate Hs.
  rewrite (isNaN_parseFloat_white_space s Hs), andb_false_r. reflexivity.
Qed.

(** C7.  Coercion before validation: for every key of the schema the
    validator is applied to the converted value; the conversion takes the
    strings true and false to the booleans and a string that both numeric
    tests accept to the number [parseInt] reads; and setting maxItems to the
    string 150 without force succeeds and stores the number 150. *)
Theorem coercion_before_validation (key : string) (validator : value → bool) :
  validators !! key = Some validator →
  (∀ value,
     validateConfigValue key value =
       Return (if validator (convert value) then Valid (convert value)
               else Invalid (suggestion key)))
  ∧ convert (VStr "true") = VBool true
  ∧ convert (VStr "false") = VBool false
  ∧ (∀ s, isNaN_Number s = false → isNaN_parseFloat s = false →
       convert (VStr s) = VNum (parseInt s))
  ∧ validateConfigValue "maxItems" (VStr "150") =
      Return (Valid (VNum (number_of_Z false 150)))
  ∧ (∀ w, let outcome := config_set "maxItems" "150" false w in
       outcome.1 = Return tt
       ∧ ∃ stored : object,
           files outcome.2 !! config_file w = Some (JSONText (VObj stored))
           ∧ stored !! "maxItems" = Some (VNum (number_of_Z false 150))).
Proof.
  intros Hkey. repeat apply conj.
  - intros value. apply validateConfigValue_own, Hkey.
  - vm_compute. reflexivity.
  - vm_compute. reflexivity.
  - apply convert_number.
  - vm_compute. reflexivity.
  - intros w.
    destruct (config_set_assigns "maxItems" "150" false
                (VNum (number_of_Z false 150)) w) as (Hr & _ & Hfiles).
    { vm_compute. reflexivity. }
    split; [exact Hr|]. eexists. split.
    + rewrite Hfiles. apply lookup_insert_eq.
    + rewrite lookup_omap. unfold Assign.
      rewrite andb_false_l, lookup_insert_eq. reflexivity.
Qed.

(** The validator of maxItems rejects every string. *)
Lemma validators_maxItems_string :
  ∃ validator, validators !! "maxItems" = Some validator
               ∧ ∀ s, validator (VStr s) = false.
Proof.
  exists (λ val,
            match val with
            | VNum n => Number_isInteger n && gt n (number_of_Z false 0)
                        && le n (number_of_Z false 1000)
            | _ => false
            end).
  split; [reflexivity | intros s; reflexivity].
Qed.

(** C10.  The numeric branch of the conversion is taken only when neither
    [Number] nor [parseFloat] gives NaN, and it yields what [parseInt]
    reads: the string 99.9 is accepted for maxItems as the number 99; a
    string of white space only, the empty string among them, is not
    converted and fails the validator of maxItems. *)
Theorem numeric_coercion_truncates :
  (∀ s n, convert (VStr s) = VNum n →
     isNaN_Number s = false ∧ isNaN_parseFloat s = false ∧ n = parseInt s)
  ∧ validateConfigValue "maxItems" (VStr "99.9") =
      Return (Valid (VNum (number_of_Z false 99)))
  ∧ (∀ s, white_space_only s = true →
       isNaN_parseFloat s = true
       ∧ convert (VStr s) = VStr s
       ∧ validateConfigValue "maxItems" (VStr s) =
           Return (Invalid "Must be a number between 1 and 1000")).
Proof.
  split; [exact convert_to_number|]. split; [vm_compute; reflexivity|].
  intros s Hs. split; [apply isNaN_parseFloat_white_space, Hs|].
  split; [apply convert_white_space, Hs|].
  destruct validators_maxItems_string as (validator & Hkey & Hstr).
  rewrite (validateConfigValue_own _ _ _ Hkey), (convert_white_space s Hs).
  rewrite Hstr. reflexivity.
Qed.


(** C6.  Set rejection: when validation of the key and raw value fails,
    [set] without force reports the message of the failure and returns with
    the files, and so the document, as they were; for a key of the schema
    the message is the suggestion of that key, for a key without validator
    it names the key; setting theme to neon fails with the suggestion that
    lists the four themes. *)
Theorem set_rejects_invalid (key value message : string) (w : world) :
  validateConfigValue key (VStr value) = Return (Invalid message) →
  let outcome := config_set key value false w in
  outcome.1 = Return tt
  ∧ files outcome.2 = files w
  ∧ document outcome.2 = document w
  ∧ console outcome.2 = (console w ++ [console_error message None])%list
  ∧ (key ∈ schema_keys → suggestions !! key = Some message)
  ∧ (lookup_validator key = None →
       message = "Unknown configuration key: " +:+ key)
  ∧ validateConfigValue "theme" (VStr "neon") =
      Return (Invalid "Must be one of: default, dark, light, rainbow").
Proof.
  intros Hv outcome. subst outcome.
  rewrite (config_set_invalid _ _ _ _ Hv). repeat apply conj; try reflexivity.
  - intros Hkey. apply validators_schema in Hkey as Hval.
    destruct Hval as [validator Hval].
    rewrite (validateConfigValue_own _ _ _ Hval) in Hv.
    destruct (validator (convert (VStr value))); [discriminate|].
    injection Hv as <-. unfold suggestion.
    destruct (proj1 (validators_suggestions key) (mk_is_Some _ _ Hval))
      as [text ->].
    reflexivity.
  - intros Hnone. unfold validateConfigValue in Hv. rewrite Hnone in Hv.
    congruence.
Qed.

Lemma Assign_lookup (obj : object) (key : string) (v : value) :
  key ≠ "__proto__" → Assign obj key v !! key = Some v.
Proof.
  intros Hkey. unfold Assign. rewrite bool_decide_eq_false_2 by exact Hkey.
  apply lookup_insert_eq.
Qed.

Lemma document_after_save (w w' : world) (config : object) :
  cwd w' = cwd w →
  files w' = <[config_file w := JSONText (VObj config)]> (files w) →
  document w' = config ∪ DEFAULT_CONFIG.
Proof.
  intros Hcwd Hfiles. unfold document, config_file. rewrite Hcwd, Hfiles.
  unfold config_file. rewrite lookup_insert_eq. reflexivity.
Qed.

(** C9.  The force path of [set] neither validates nor converts: for every
    key and raw value it performs the assignment of the raw string on the
    loaded document and saves the result, so that the document then maps
    the key to the raw string (the assignment to [__proto__] goes to the
    inherited setter instead).  A stored theme that fails the validator of
    theme, and a stored key outside the schema, are reached this way. *)
Theorem force_set_bypasses_validation (key value : string) (w : world) :
  let outcome := config_set key value true w in
  outcome.1 = Return tt
  ∧ files outcome.2 =
      <[config_file w :=
          JSONText (VObj (omap to_json (Assign (document w) key (VStr value))))]>
        (files w)
  ∧ (key ≠ "__proto__" → document outcome.2 !! key = Some (VStr value))
  ∧ (∃ validator,
       validators !! "theme" = Some validator
       ∧ validator (VStr "neon") = false
       ∧ document (config_set "theme" "neon" true fresh).2 !! "theme"
         = Some (VStr "neon"))
  ∧ ("plugin" ∉ schema_keys)
  ∧ document (config_set "plugin" "on" true fresh).2 !! "plugin"
    = Some (VStr "on").
Proof.
  assert (Hgen : ∀ k v w0, k ≠ "__proto__" →
            document (config_set k v true w0).2 !! k = Some (VStr v)).
  { intros k v w0 Hk.
    destruct (config_set_assigns k v true (VStr v) w0 eq_refl)
      as (_ & Hcwd & Hfiles).
    rewrite (document_after_save _ _ _ Hcwd Hfiles).
    apply lookup_union_Some_l. rewrite lookup_omap, Assign_lookup by exact Hk.
    reflexivity. }
  destruct (config_set_assigns key value true (VStr value) w eq_refl)
    as (Hr & Hcwd & Hfiles).
  repeat apply conj.
  - exact Hr.
  - exact Hfiles.
  - apply Hgen.
  - exists (includes ["default"; "dark"; "light"; "rainbow"]).
    split; [reflexivity|]. split; [reflexivity|]. apply Hgen. discriminate.
  - intros Hin. repeat (apply elem_of_cons in Hin as [Hin|Hin];
                        [discriminate Hin|]).
    inversion Hin.
  - apply Hgen. discriminate.
Qed.

(** *** [export] and [import] *)

Lemma config_export_run (filename : option string) (w : world) :
  let outcome := config_export filename w in
  outcome.1 = Return tt
  ∧ cwd outcome.2 = cwd w
  ∧ files outcome.2 =
      <[resolve (cwd w) (default "config-export.json" filename) :=
          JSONText (VObj (omap to_json (document w)))]> (files w).
Proof.
  unfold config_export. run_io. rewrite loadConfig_run.
  unfold JSON_stringify. rewrite to_json_object. repeat split; reflexivity.
Qed.

Lemma log_each_run (lines : list string) (w : world) :
  log_each lines w =
    (Return tt,
     World (cwd w) (files w) (console w ++ (console_log <$> lines))).
Proof.
  revert w. induction lines as [|line lines IH]; intros w.
  - simpl. rewrite app_nil_r. destruct w; reflexivity.
  - cbn [log_each]. run_io. rewrite IH. cbn [cwd files console].
    rewrite <- app_assoc. reflexivity.
Qed.

(** The validation loop pushes one line for each entry that fails, in order,
    and throws only when a validation throws. *)
Lemma validate_each_run (entries : list (string * value)) (acc errors : list string) :
  validate_each entries acc = Return errors →
  errors = (acc ++ omap entry_error entries)%list.
Proof.
  revert acc. induction entries as [|[k v] entries IH]; intros acc; simpl.
  - intros [= <-]. rewrite app_nil_r. reflexivity.
  - unfold entry_error at 1. simpl.
    destruct (validateConfigValue k v) as [[v'|message]|e]; try discriminate.
    + apply IH.
    + intros H. apply IH in H. rewrite <- app_assoc in H. exact H.
Qed.

Lemma validate_each_valid (entries : list (string * value)) (acc : list string) :
  (∀ k v, (k, v) ∈ entries →
     ∃ v', validateConfigValue k v = Return (Valid v')) →
  validate_each entries acc = Return acc.
Proof.
  revert acc. induction entries as [|[k v] entries IH]; intros acc Hall.
  - reflexivity.
  - simpl. destruct (Hall k v) as [v' ->]; [left|].
    apply IH. intros k' v0 Hin. apply Hall. right. exact Hin.
Qed.


(** [import] of a file that holds JSON whose entries validate without an
    exception: it returns, and it writes the configuration file unless it
    stops at validation errors or at a declined confirmation. *)
Lemma config_import_run (filename : string) (merge force answer : bool)
    (w : world) (importConfig : value) (entries : list (string * value))
    (errors : list string) :
  files w !! resolve (cwd w) filename = Some (JSONText importConfig) →
  Object_entries importConfig = Return entries →
  validate_each entries [] = Return errors →
  let outcome := config_import filename merge force answer w in
  outcome.1 = Return tt
  ∧ cwd outcome.2 = cwd w
  ∧ files outcome.2 =
      if bool_decide (0 < length errors) && negb force then files w
      else if negb force && negb answer then files w
      else match to_json (final_config merge w importConfig) with
           | Some json => <[config_file w := JSONText json]> (files w)
           | None => files w
           end.
Proof.
  intros Hfile Hentries Herrors. unfold config_import. run_io.
  cbn [cwd files console]. rewrite Hfile.
  cbn [negb cwd files console]. rewrite Hfile. cbv beta iota.
  rewrite Hentries, Herrors. unfold final_config.
  destruct (bool_decide (0 < length errors) && negb force) eqn:Habort.
  - rewrite log_each_run. repeat split; reflexivity.
  - destruct merge; [rewrite loadConfig_run|]; cbv beta iota;
      unfold confirm; destruct force; cbn [negb andb]; run_io;
      try (destruct answer; cbn [negb andb]);
      try (repeat split; reflexivity);
      rewrite saveConfig_run; cbn [cwd files console];
      try rewrite to_json_object;
      try (destruct (to_json importConfig));
      repeat split; reflexivity.
Qed.

(** What [import] prints when it stops at validation errors. *)
Lemma config_import_aborts (filename : string) (merge answer : bool)
    (w : world) (importConfig : value) (entries : list (string * value))
    (errors : list string) :
  files w !! resolve (cwd w) filename = Some (JSONText importConfig) →
  Object_entries importConfig = Return entries →
  validate_each entries [] = Return errors →
  errors ≠ [] →
  config_import filename merge false answer w =
    (Return tt,
     World (cwd w) (files w)
       (console w
        ++ [ spinner_start "Reading import file...";
             spinner_text "Validating configuration...";
             spinner_fail "Validation errors found:" None ]
        ++ (console_log <$> errors)
        ++ [ console_log "Use --force to ignore validation errors." ])).
Proof.
  intros Hfile Hentries Herrors Hne. unfold config_import. run_io.
  cbn [cwd files console]. rewrite Hfile.
  cbn [negb cwd files console]. rewrite Hfile. cbv beta iota.
  rewrite Hentries, Herrors.
  rewrite bool_decide_eq_true_2 by (destruct errors; [congruence|simpl; lia]).
  cbn [negb andb]. rewrite log_each_run. cbn [cwd files console].
  rewrite <- !app_assoc. reflexivity.
Qed.

(** C3.  Atomicity of an aborted import: when the validation of the entries
    of the import file gives one or more errors and force is off, [import]
    returns with the files, and so the persisted document, as they were.
    The errors are one line for each entry that fails validation, in the
    order of the entries, and every one of them is printed. *)
Theorem aborted_import_is_atomic (filename : string) (merge answer : bool)
    (w : world) (importConfig : value) (entries : list (string * value))
    (errors : list string) :
  files w !! resolve (cwd w) filename = Some (JSONText importConfig) →
  Object_entries importConfig = Return entries →
  validate_each entries [] = Return errors →
  errors ≠ [] →
  let outcome := config_import filename merge false answer w in
  outcome.1 = Return tt
  ∧ files outcome.2 = files w
  ∧ document outcome.2 = document w
  ∧ errors = omap entry_error entries
  ∧ (∀ line, line ∈ errors → console_log line ∈ console outcome.2).
Proof.
  intros Hfile Hentries Herrors Hne outcome. subst outcome.
  rewrite (config_import_aborts _ _ _ _ _ _ _ Hfile Hentries Herrors Hne).
  repeat apply conj; try reflexivity.
  - apply (validate_each_run _ [] _ Herrors).
  - intros line Hline. cbn [snd console].
    rewrite !elem_of_app. right. right. left.
    apply list_elem_of_fmap. exists line. auto.
Qed.


Lemma json_object_lookup (m : object) (k : string) (v : value) :
  json_object m → m !! k = Some v → to_json v = Some v.
Proof.
  intros Hm Hk. unfold json_object in Hm.
  assert (H : omap to_json m !! k = Some v) by (rewrite Hm; exact Hk).
  rewrite lookup_omap, Hk in H. exact H.
Qed.

Lemma json_object_intro (m : object) :
  (∀ k v, m !! k = Some v → to_json v = Some v) → json_object m.
Proof.
  intros Hm. apply map_eq. intros k. rewrite lookup_omap.
  destruct (m !! k) as [v|] eqn:Hk; [|reflexivity].
  simpl. rewrite (Hm k v Hk). reflexivity.
Qed.

Lemma json_object_union (a b : object) :
  json_object a → json_object b → json_object (a ∪ b).
Proof.
  intros Ha Hb. apply json_object_intro. intros k v Hk.
  apply lookup_union_Some_raw in Hk as [Hk|[_ Hk]];
    eauto using json_object_lookup.
Qed.

Lemma json_object_DEFAULT_CONFIG : json_object DEFAULT_CONFIG.
Proof.
  apply json_object_intro. intros k v Hk. unfold DEFAULT_CONFIG in Hk.
  apply elem_of_list_to_map_2 in Hk.
  repeat (apply elem_of_cons in Hk as [[= -> ->]|Hk]; [reflexivity|]).
  inversion Hk.
Qed.

(** A value that passes the validation of a schema key is a JSON value. *)
Lemma valid_value_json (k : string) (v v' : value) :
  k ∈ schema_keys →
  validateConfigValue k v = Return (Valid v') →
  to_json v = Some v.
Proof.
  intros Hk Hv.
  destruct v as [|b|[s|s| |s m e]|s|items|props|name]; try reflexivity;
    exfalso; unfold schema_keys in Hk;
    repeat (apply elem_of_cons in Hk as [->|Hk]; [discriminate Hv|]);
    inversion Hk.
Qed.

Lemma valid_document_json (D : object) : valid_document D → json_object D.
Proof.
  intros [Hdom Hval]. apply json_object_intro. intros k v Hk.
  destruct (Hval k v Hk) as [v' Hv].
  apply (valid_value_json k v v'); [|exact Hv].
  apply Hdom. eauto.
Qed.

(** Validation converts before it applies the validator, so a value may
    satisfy the validator of its key and fail validation: the string 8080
    is a non-empty string, which is all the validator of apiUrl asks, and
    validation reads it as a number.  A document that holds it is not valid
    in the sense of [valid_document]. *)
Remark validator_before_conversion :
  (∃ validator, validators !! "apiUrl" = Some validator
                ∧ validator (VStr "8080") = true)
  ∧ validateConfigValue "apiUrl" (VStr "8080") =
      Return (Invalid "Must be a valid URL string").
Proof.
  split; [|vm_compute; reflexivity].
  exists (λ val,
            match val with
            | VStr s => bool_decide (0 < String.length s)
            | _ => false
            end).
  split; reflexivity.
Qed.

(** Over a document that has every schema key the defaults add nothing. *)
Lemma populated_union_DEFAULT_CONFIG (D : object) :
  (∀ k, k ∈ schema_keys → is_Some (D !! k)) → D ∪ DEFAULT_CONFIG = D.
Proof.
  intros Hdom. apply map_eq. intros k. rewrite lookup_union.
  destruct (D !! k) as [v|] eqn:Hk.
  - destruct (DEFAULT_CONFIG !! k); reflexivity.
  - destruct (DEFAULT_CONFIG !! k) as [d|] eqn:Hd; [|reflexivity].
    destruct (Hdom k) as [v Hv]; [apply dom_DEFAULT_CONFIG; eauto|].
    congruence.
Qed.

(** C2.  Merge and replace: when [import] goes through (it is forced, or
    validation finds no error and the user confirms), the document the store
    holds afterwards maps every key of the imported object M to its value in
    M, and every other key to its value in the current document in merge
    mode, and to its default in replace mode. *)
Theorem import_merge_replace (filename : string) (merge force answer : bool)
    (w : world) (M : object) (errors : list string) :
  files w !! resolve (cwd w) filename = Some (JSONText (VObj M)) →
  json_object M →
  (merge = true → json_object (document w)) →
  validate_each (map_to_list M) [] = Return errors →
  (if force then True else errors = [] ∧ answer = true) →
  let outcome := config_import filename merge force answer w in
  outcome.1 = Return tt
  ∧ loadConfig outcome.2 = (Return (document outcome.2), outcome.2)
  ∧ ∀ k, document outcome.2 !! k =
           match M !! k with
           | Some v => Some v
           | None => if merge then document w !! k else DEFAULT_CONFIG !! k
           end.
Proof.
  intros Hfile HM HC Herrors Hgo outcome.
  destruct (config_import_run filename merge force answer w (VObj M)
              (map_to_list M) errors Hfile eq_refl Herrors)
    as (Hr & Hcwd & Hfiles).
  fold outcome in Hr, Hcwd, Hfiles.
  split; [exact Hr|]. split; [apply loadConfig_run|].
  assert (Hsaved : files outcome.2 =
            <[config_file w :=
                JSONText (VObj (if merge then M ∪ document w else M))]>
              (files w)).
  { rewrite Hfiles. destruct force.
    - rewrite andb_false_r. cbn [negb andb].
      unfold final_config, spread. cbn [own_properties].
      destruct merge; rewrite to_json_object;
        [rewrite (json_object_union _ _ HM (HC eq_refl))|rewrite HM];
        reflexivity.
    - destruct Hgo as [-> ->]. cbn [length negb andb].
      rewrite bool_decide_eq_false_2 by lia. cbn [andb].
      unfold final_config, spread. cbn [own_properties].
      destruct merge; rewrite to_json_object;
        [rewrite (json_object_union _ _ HM (HC eq_refl))|rewrite HM];
        reflexivity. }
  intros k. rewrite (document_after_save _ _ _ Hcwd Hsaved).
  destruct merge.
  - rewrite populated_union_DEFAULT_CONFIG.
    + rewrite lookup_union. destruct (M !! k), (document w !! k); reflexivity.
    + intros k' Hk'. destruct (document_populated w k' Hk') as [v Hv].
      destruct (M !! k') as [m|] eqn:Hm.
      * exists m. apply lookup_union_Some_l. exact Hm.
      * exists v. rewrite lookup_union_r; assumption.
  - rewrite lookup_union.
    destruct (M !! k), (DEFAULT_CONFIG !! k); reflexivity.
Qed.

(** Round trip of a document validation accepts: the file [export] writes,
    imported into any store in replace mode without force and confirmed by
    the user, leaves that store with the document. *)
Lemma round_trip_of_accepted (w target : world) (D : object)
    (exported : option string) (imported : string) :
  loadConfig w = (Return D, w) →
  valid_document D →
  files target !! resolve (cwd target) imported =
    files (config_export exported w).2
      !! resolve (cwd w) (default "config-export.json" exported) →
  let outcome := config_import imported false false true target in
  outcome.1 = Return tt
  ∧ loadConfig outcome.2 = (Return D, outcome.2).
Proof.
  intros Hload HD Hcopy outcome.
  rewrite loadConfig_run in Hload. injection Hload as HDw.
  pose proof (valid_document_json D HD) as Hjson.
  destruct (config_export_run exported w) as (_ & _ & Hexp).
  rewrite Hexp, lookup_insert_eq, HDw, Hjson in Hcopy.
  assert (Hvalid : validate_each (map_to_list D) [] = Return []).
  { apply validate_each_valid. intros k v Hin.
    apply elem_of_map_to_list in Hin. apply (proj2 HD k v Hin). }
  destruct (config_import_run imported false false true target (VObj D)
              (map_to_list D) [] Hcopy eq_refl Hvalid)
    as (Hr & Hcwd & Hfiles).
  fold outcome in Hr, Hcwd, Hfiles.
  split; [exact Hr|]. rewrite loadConfig_run. f_equal. f_equal.
  cbn [length negb andb] in Hfiles.
  rewrite bool_decide_eq_false_2 in Hfiles by lia. cbn [andb] in Hfiles.
  unfold final_config in Hfiles. rewrite to_json_object, Hjson in Hfiles.
  rewrite (document_after_save _ _ _ Hcwd Hfiles).
  apply populated_union_DEFAULT_CONFIG. intros k Hk. apply (proj1 HD), Hk.
Qed.

(** *** The round trip and the validators *)

Lemma convert_string_cases (s : string) :
  convert (VStr s) = VStr s
  ∨ (∃ b, convert (VStr s) = VBool b)
  ∨ (∃ n, convert (VStr s) = VNum n).
Proof.
  unfold convert. repeat case_bool_decide; eauto.
  destruct (negb (isNaN_Number s) && negb (isNaN_parseFloat s)); eauto.
Qed.

Lemma satisfies_validator_schema (k : string) (v : value) :
  satisfies_validator k v = true → k ∈ schema_keys.
Proof.
  unfold satisfies_validator. intros Hv. apply validators_schema.
  destruct (validators !! k); [eauto|discriminate Hv].
Qed.

Lemma apiUrl_validator :
  validators !! "apiUrl" =
    Some (λ val, match val with
                 | VStr s => bool_decide (0 < String.length s)
                 | _ => false
                 end).
Proof. reflexivity. Qed.

(** The validator of every key but apiUrl accepts only values that
    conversion leaves as they are. *)
Lemma validator_fixes (k : string) (v : value) :
  satisfies_validator k v = true → k ≠ "apiUrl" → convert v = v.
Proof.
  unfold satisfies_validator. intros Hv Hk.
  destruct (validators !! k) as [validator|] eqn:Hvalidator;
    [|discriminate Hv].
  destruct v as [|b|n|s|items|props|name]; try reflexivity.
  unfold validators in Hvalidator.
  apply elem_of_list_to_map_2 in Hvalidator.
  repeat (apply elem_of_cons in Hvalidator as [[= -> ->]|Hvalidator];
          [first
             [ discriminate Hv
             | exfalso; apply Hk; reflexivity
             | cbn [includes] in Hv; apply bool_decide_eq_true_1 in Hv;
               repeat (apply elem_of_cons in Hv as [->|Hv]; [reflexivity|]);
               inversion Hv ]|]).
  inversion Hvalidator.
Qed.

(** A value that satisfies the validator of its key is a JSON value. *)
Lemma satisfies_validator_json (k : string) (v : value) :
  satisfies_validator k v = true → to_json v = Some v.
Proof.
  intros Hv. pose proof (satisfies_validator_schema k v Hv) as Hk.
  destruct v as [|b|[s|s| |s m e]|s|items|props|name]; try reflexivity;
    exfalso; unfold schema_keys in Hk;
    repeat (apply elem_of_cons in Hk as [->|Hk];
            [vm_compute in Hv; discriminate Hv|]);
    inversion Hk.
Qed.

Lemma satisfies_validators_json (D : object) :
  satisfies_validators D → json_object D.
Proof.
  intros [_ Hval]. apply json_object_intro. intros k v Hk.
  apply (satisfies_validator_json k v), (Hval k v Hk).
Qed.

(** The URL of a document that satisfies the validators is a string. *)
Lemma satisfies_validators_apiUrl (D : object) :
  satisfies_validators D →
  ∃ url, D !! "apiUrl" = Some (VStr url)
         ∧ bool_decide (0 < String.length url) = true.
Proof.
  intros [Hdom Hval].
  destruct (proj1 (Hdom "apiUrl")) as [v Hv];
    [unfold schema_keys; do 6 right; left|].
  pose proof (Hval "apiUrl" v Hv) as Hsat.
  unfold satisfies_validator in Hsat. rewrite apiUrl_validator in Hsat.
  destruct v as [|b|n|s|items|props|name]; try discriminate Hsat.
  exists s. split; [exact Hv | exact Hsat].
Qed.

(** When conversion leaves its URL a string, a document that satisfies the
    validators is one validation accepts. *)
Lemma satisfies_validators_accepted (D : object) (url : string) :
  satisfies_validators D →
  D !! "apiUrl" = Some (VStr url) →
  convert (VStr url) = VStr url →
  valid_document D.
Proof.
  intros [Hdom Hval] Hurl Hconv. split; [exact Hdom|]. intros k v Hk.
  pose proof (Hval k v Hk) as Hsat.
  assert (Hfixed : convert v = v).
  { destruct (decide (k = "apiUrl")) as [->|Hne].
    - rewrite Hurl in Hk. injection Hk as <-. exact Hconv.
    - exact (validator_fixes k v Hsat Hne). }
  unfold satisfies_validator in Hsat.
  destruct (validators !! k) as [validator|] eqn:Hvalidator;
    [|discriminate Hsat].
  rewrite (validateConfigValue_own k validator v Hvalidator), Hfixed, Hsat.
  eauto.
Qed.

(** Over keys that have a validator the validation loop returns, with one
    line for each entry that fails. *)
Lemma validate_each_returns (entries : list (string * value))
    (acc : list string) :
  (∀ k v, (k, v) ∈ entries → is_Some (validators !! k)) →
  validate_each entries acc = Return (acc ++ omap entry_error entries)%list.
Proof.
  revert acc. induction entries as [|[k v] entries IH]; intros acc Hall.
  - simpl. rewrite app_nil_r. reflexivity.
  - destruct (Hall k v) as [validator Hvalidator]; [left|].
    assert (Hrest : ∀ k' v', (k', v') ∈ entries → is_Some (validators !! k'))
      by (intros k' v' Hin; apply (Hall k' v'); right; exact Hin).
    cbn [validate_each omap list_omap]. unfold entry_error at 1.
    cbn [fst snd].
    rewrite (validateConfigValue_own k validator v Hvalidator).
    destruct (validator (convert v)).
    + apply IH, Hrest.
    + rewrite (IH _ Hrest), <- app_assoc. reflexivity.
Qed.

(** The import of a document that satisfies the validators and whose URL
    conversion does not leave a string stops at the validation of the
    URL. *)
Lemma round_trip_refused (target : world) (imported : string) (D : object)
    (url : string) :
  satisfies_validators D →
  D !! "apiUrl" = Some (VStr url) →
  convert (VStr url) ≠ VStr url →
  files target !! resolve (cwd target) imported = Some (JSONText (VObj D)) →
  let outcome := config_import imported false false true target in
  outcome.1 = Return tt
  ∧ cwd outcome.2 = cwd target
  ∧ files outcome.2 = files target
  ∧ console_log "apiUrl: Must be a valid URL string" ∈ console outcome.2.
Proof.
  intros HD Hurl Hconv Hfile outcome.
  assert (Hline : "apiUrl: Must be a valid URL string"
                  ∈ omap entry_error (map_to_list D)).
  { apply list_elem_of_omap. exists ("apiUrl", VStr url).
    split; [apply elem_of_map_to_list; exact Hurl|].
    unfold entry_error. cbn [fst snd].
    rewrite (validateConfigValue_own _ _ _ apiUrl_validator).
    destruct (convert_string_cases url) as [Hsame|[[b ->]|[n ->]]];
      [contradiction | reflexivity | reflexivity]. }
  assert (Hreturns : validate_each (map_to_list D) []
                     = Return (omap entry_error (map_to_list D))).
  { apply (validate_each_returns (map_to_list D) []). intros k v Hin.
    apply elem_of_map_to_list in Hin. apply validators_schema.
    apply (satisfies_validator_schema k v), (proj2 HD k v Hin). }
  assert (Hne : omap entry_error (map_to_list D) ≠ []).
  { intros Hnil. rewrite Hnil in Hline. inversion Hline. }
  unfold outcome.
  rewrite (config_import_aborts imported false true target (VObj D)
             (map_to_list D) _ Hfile eq_refl Hreturns Hne).
  cbn [fst snd cwd files console]. repeat apply conj; try reflexivity.
  rewrite !elem_of_app. right. right. left.
  apply list_elem_of_fmap. eauto.
Qed.

(** C1, as the code has it.  Round trip: let D be the document of a store,
    fully populated and with every value satisfying its key's validator,
    and let the file [export] writes for it be imported into any store in
    replace mode without force, the confirmation answered yes.  The URL of
    D is a string.  When conversion leaves it a string (it is not the text
    true or false, nor a numeral), the importing store then loads as D.
    Otherwise [import] validates the converted URL, prints that the URL is
    not valid, and leaves every file of the importing store as it was. *)
Theorem export_import_round_trip (w target : world) (D : object)
    (exported : option string) (imported : string) :
  loadConfig w = (Return D, w) →
  satisfies_validators D →
  files target !! resolve (cwd target) imported =
    files (config_export exported w).2
      !! resolve (cwd w) (default "config-export.json" exported) →
  let outcome := config_import imported false false true target in
  ∃ url,
    D !! "apiUrl" = Some (VStr url)
    ∧ outcome.1 = Return tt
    ∧ (convert (VStr url) = VStr url →
       loadConfig outcome.2 = (Return D, outcome.2))
    ∧ (convert (VStr url) ≠ VStr url →
       files outcome.2 = files target
       ∧ console_log "apiUrl: Must be a valid URL string" ∈ console outcome.2).
Proof.
  intros Hload HD Hcopy outcome.
  destruct (satisfies_validators_apiUrl D HD) as (url & Hurl & _).
  exists url. split; [exact Hurl|].
  destruct (convert_string_cases url) as [Hsame|Hconverted].
  - pose proof (satisfies_validators_accepted D url HD Hurl Hsame) as Hvalid.
    destruct (round_trip_of_accepted w target D exported imported
                Hload Hvalid Hcopy) as [Hreturn Hround].
    repeat apply conj; [exact Hreturn | intros _; exact Hround |].
    intros Hne. contradiction.
  - assert (Hne : convert (VStr url) ≠ VStr url).
    { intros Heq. rewrite Heq in Hconverted.
      destruct Hconverted as [[b Hb]|[n Hn]]; discriminate. }
    assert (Hfile : files target !! resolve (cwd target) imported
                    = Some (JSONText (VObj D))).
    { rewrite loadConfig_run in Hload. injection Hload as HDw.
      destruct (config_export_run exported w) as (_ & _ & Hexp).
      rewrite Hcopy, Hexp, lookup_insert_eq, HDw.
      rewrite (satisfies_validators_json D HD). reflexivity. }
    destruct (round_trip_refused target imported D url HD Hurl Hne Hfile)
      as (Hreturn & _ & Hfiles & Hprinted).
    repeat apply conj; [exact Hreturn | intros Heq; contradiction |].
    intros _. split; [exact Hfiles | exact Hprinted].
Qed.


(** *** Error paths of [get] and [reset] *)

(** The document does not depend on what the console shows. *)
Lemma document_emit (w : world) (out : list event) :
  document (World (cwd w) (files w) out) = document w.
Proof. reflexivity. Qed.

Lemma truthy_Some (key : string) :
  is_empty key = false → truthy (Some key) = Some key.
Proof. intros Hkey. unfold truthy. rewrite Hkey. reflexivity. Qed.

(** [get] of a key the loaded configuration does not have. *)
Lemma config_get_not_found (key format : string) (w : world) :
  is_empty key = false →
  HasProperty (document w) key = false →
  config_get (Some key) false format w =
    (Return tt,
     World (cwd w) (files w)
       (console w
        ++ [ spinner_start "Loading configuration...";
             spinner_succeed "Configuration loaded!";
             console_error
               ("Configuration key " +:+ dquote +:+ key +:+ dquote
                +:+ " not found!") None;
             console_log
               ("Available keys: " +:+ join_keys (document w)) ])).
Proof.
  intros Hkey Hmissing. unfold config_get. rewrite (truthy_Some key Hkey).
  run_io. rewrite loadConfig_run, document_emit. cbv beta iota.
  rewrite Hmissing. cbn [negb cwd files console].
  rewrite <- !app_assoc. reflexivity.
Qed.

(** [reset] of a key [DEFAULT_CONFIG] does not have. *)
Lemma config_reset_unknown (key : string) (force answer : bool) (w : world) :
  is_empty key = false →
  HasProperty DEFAULT_CONFIG key = false →
  config_reset (Some key) force answer w =
    (Return tt,
     World (cwd w) (files w)
       (console w
        ++ [ console_error ("Unknown configuration key: " +:+ key) None ])).
Proof.
  intros Hkey Hmissing. unfold config_reset. rewrite (truthy_Some key Hkey).
  run_io. rewrite loadConfig_run. cbv beta iota.
  rewrite Hmissing. reflexivity.
Qed.

(** C8, as the code has it.  A not-found error of [get], a validation
    failure of [set] and an unknown key of [reset] each print the error on
    the error stream and return with the files as they were; the action
    returns, so the process ends with status 0, as it does after a
    success. *)
Theorem errors_reported_exit_zero (w : world) :
  (∀ key format,
     is_empty key = false → HasProperty (document w) key = false →
     let outcome := config_get (Some key) false format w in
     exit_status outcome.1 = 0%Z
     ∧ files outcome.2 = files w
     ∧ console_error
         ("Configuration key " +:+ dquote +:+ key +:+ dquote +:+ " not found!")
         None ∈ console outcome.2)
  ∧ (∀ key value message,
       validateConfigValue key (VStr value) = Return (Invalid message) →
       let outcome := config_set key value false w in
       exit_status outcome.1 = 0%Z
       ∧ files outcome.2 = files w
       ∧ console_error message None ∈ console outcome.2)
  ∧ (∀ key force answer,
       is_empty key = false → HasProperty DEFAULT_CONFIG key = false →
       let outcome := config_reset (Some key) force answer w in
       exit_status outcome.1 = 0%Z
       ∧ files outcome.2 = files w
       ∧ console_error ("Unknown configuration key: " +:+ key) None
         ∈ console outcome.2)
  ∧ (∀ key value,
       exit_status (config_set key value true w).1 = 0%Z).
Proof.
  repeat apply conj.
  - intros key format Hkey Hmissing outcome. subst outcome.
    rewrite (config_get_not_found _ _ _ Hkey Hmissing).
    repeat split. cbn [snd console]. rewrite !elem_of_app. right.
    do 2 right. left.
  - intros key value message Hv outcome. subst outcome.
    rewrite (config_set_invalid _ _ _ _ Hv).
    repeat split. cbn [snd console]. rewrite elem_of_app. right. left.
  - intros key force answer Hkey Hmissing outcome. subst outcome.
    rewrite (config_reset_unknown _ _ _ _ Hkey Hmissing).
    repeat split. cbn [snd console]. rewrite elem_of_app. right. left.
  - intros key value.
    destruct (config_set_assigns key value true (VStr value) w eq_refl)
      as (-> & _). reflexivity.
Qed.

(** C4, as the code has it.  [export] has one mode: it writes the whole
    loaded document, every schema key with its value whether or not that
    value is the default; for a store that holds the defaults it writes
    [DEFAULT_CONFIG], with its ten keys. *)
Theorem export_writes_whole_document (filename : option string) (w : world) :
  let outcome := config_export filename w in
  let target := resolve (cwd w) (default "config-export.json" filename) in
  outcome.1 = Return tt
  ∧ files outcome.2 !! target =
      Some (JSONText (VObj (omap to_json (document w))))
  ∧ (json_object (document w) →
       files outcome.2 !! target = Some (JSONText (VObj (document w)))
       ∧ ∀ k, k ∈ schema_keys → is_Some (document w !! k))
  ∧ (document w = DEFAULT_CONFIG →
       files outcome.2 !! target = Some (JSONText (VObj DEFAULT_CONFIG)))
  ∧ size DEFAULT_CONFIG = 10.
Proof.
  intros outcome target.
  destruct (config_export_run filename w) as (Hr & _ & Hfiles).
  fold outcome in Hr, Hfiles.
  assert (Hwritten : files outcome.2 !! target =
            Some (JSONText (VObj (omap to_json (document w))))).
  { rewrite Hfiles. apply lookup_insert_eq. }
  repeat apply conj.
  - exact Hr.
  - exact Hwritten.
  - intros Hjson. split; [rewrite Hwritten, Hjson; reflexivity|].
    intros k Hk. apply document_populated, Hk.
  - intros Hdefault. rewrite Hwritten, Hdefault, json_object_DEFAULT_CONFIG.
    reflexivity.
  - vm_compute. reflexivity.
Qed.


(** *** The claims at concrete stores *)

Lemma valid_document_DEFAULT_CONFIG : valid_document DEFAULT_CONFIG.
Proof.
  split; [exact dom_DEFAULT_CONFIG|]. intros k v Hk.
  unfold DEFAULT_CONFIG in Hk. apply elem_of_list_to_map_2 in Hk.
  repeat (apply elem_of_cons in Hk as [[= -> ->]|Hk];
          [eexists; vm_compute; reflexivity|]).
  inversion Hk.
Qed.

(** Assigning a value that passes the validation of a schema key keeps a
    document valid. *)
Lemma valid_document_insert (D : object) (k : string) (v v' : value) :
  valid_document D → k ∈ schema_keys →
  validateConfigValue k v = Return (Valid v') →
  valid_document (<[k := v]> D).
Proof.
  intros [Hdom Hval] Hk Hv. split.
  - intros k'. rewrite lookup_insert_is_Some. split.
    + intros Hk'. destruct (decide (k = k')) as [Heq|Hne]; [left; exact Heq|].
      right. split; [exact Hne | apply Hdom, Hk'].
    + intros [<-|[_ Hsome]]; [exact Hk | apply Hdom, Hsome].
  - intros k' v0. rewrite lookup_insert_Some.
    intros [[<- <-]|[_ Hk']]; [eauto|apply (Hval k' v0 Hk')].
Qed.

Lemma valid_document_themed :
  valid_document (<["theme" := VStr "dark"]> DEFAULT_CONFIG).
Proof.
  apply (valid_document_insert _ _ _ (VStr "dark")).
  - exact valid_document_DEFAULT_CONFIG.
  - left.
  - vm_compute. reflexivity.
Qed.

(** C4, counterexample.  A store without configuration file holds the
    defaults; what [export] writes for it has the key theme with its default
    value: the exported keys are not empty, and they are not the keys whose
    value differs from the default. *)
Lemma export_of_defaults_keeps_default_keys :
  document fresh = DEFAULT_CONFIG
  ∧ ∃ exported : object,
      files (config_export None fresh).2
        !! ["home"; "demo"; "config-export.json"]
      = Some (JSONText (VObj exported))
      ∧ exported !! "theme" = Some (VStr "default")
      ∧ DEFAULT_CONFIG !! "theme" = Some (VStr "default")
      ∧ exported ≠ ∅
      ∧ ¬ (∀ k v, exported !! k = Some v → DEFAULT_CONFIG !! k ≠ Some v).
Proof.
  split; [reflexivity|]. exists DEFAULT_CONFIG.
  split; [vm_compute; reflexivity|].
  split; [reflexivity|]. split; [reflexivity|]. split.
  - intros Hempty.
    assert (H : DEFAULT_CONFIG !! "theme" = (∅ : object) !! "theme")
      by (rewrite Hempty; reflexivity).
    rewrite lookup_empty in H. discriminate H.
  - intros Hall. apply (Hall "theme" (VStr "default")); reflexivity.
Qed.

(** C8, counterexample.  [get] of a key that is not found, [set] of a value
    that fails validation and [reset] of an unknown key end with status 0,
    the status of a [get] that succeeds. *)
Lemma error_paths_exit_zero :
  HasProperty (document fresh) "colour" = false
  ∧ exit_status (config_get (Some "colour") false "simple" fresh).1 = 0%Z
  ∧ validateConfigValue "theme" (VStr "neon") =
      Return (Invalid "Must be one of: default, dark, light, rainbow")
  ∧ exit_status (config_set "theme" "neon" false fresh).1 = 0%Z
  ∧ HasProperty DEFAULT_CONFIG "colour" = false
  ∧ exit_status (config_reset (Some "colour") true true fresh).1 = 0%Z
  ∧ exit_status (config_get (Some "theme") false "simple" fresh).1 = 0%Z
  ∧ ¬ (exit_status (config_get (Some "colour") false "simple" fresh).1 ≠ 0%Z).
Proof.
  repeat apply conj; try (vm_compute; reflexivity).
  intros H. apply H. vm_compute. reflexivity.
Qed.


Lemma document_themed :
  document themed = <["theme" := VStr "dark"]> DEFAULT_CONFIG.
Proof.
  unfold document.
  replace (files themed !! config_file themed)
    with (Some (JSONText (VObj {[ "theme" := VStr "dark" ]})))
    by (vm_compute; reflexivity).
  unfold spread. cbn [own_properties]. symmetry.
  apply insert_union_singleton_l.
Qed.

Lemma document_with_language :
  document with_language = <["theme" := VStr "dark"]> DEFAULT_CONFIG.
Proof.
  unfold document.
  replace (files with_language !! config_file with_language)
    with (Some (JSONText (VObj {[ "theme" := VStr "dark" ]})))
    by (vm_compute; reflexivity).
  unfold spread. cbn [own_properties]. symmetry.
  apply insert_union_singleton_l.
Qed.

Lemma satisfies_validators_DEFAULT_CONFIG :
  satisfies_validators DEFAULT_CONFIG.
Proof.
  split; [exact dom_DEFAULT_CONFIG|]. intros k v Hk.
  unfold DEFAULT_CONFIG in Hk. apply elem_of_list_to_map_2 in Hk.
  repeat (apply elem_of_cons in Hk as [[= -> ->]|Hk];
          [vm_compute; reflexivity|]).
  inversion Hk.
Qed.

(** Assigning a value that satisfies the validator of a schema key keeps a
    document one that satisfies the validators. *)
Lemma satisfies_validators_insert (D : object) (k : string) (v : value) :
  satisfies_validators D → satisfies_validator k v = true →
  satisfies_validators (<[k := v]> D).
Proof.
  intros [Hdom Hval] Hv. split.
  - intros k'. rewrite lookup_insert_is_Some. split.
    + intros Hk'. destruct (decide (k = k')) as [Heq|Hne]; [left; exact Heq|].
      right. split; [exact Hne | apply Hdom, Hk'].
    + intros [<-|[_ Hsome]];
        [exact (satisfies_validator_schema k v Hv) | apply Hdom, Hsome].
  - intros k' v0. rewrite lookup_insert_Some.
    intros [[<- <-]|[_ Hk']]; [exact Hv | apply (Hval k' v0 Hk')].
Qed.

Lemma document_numeral_url :
  document numeral_url = <["apiUrl" := VStr "8080"]> DEFAULT_CONFIG.
Proof.
  unfold document.
  replace (files numeral_url !! config_file numeral_url)
    with (Some (JSONText (VObj {[ "apiUrl" := VStr "8080" ]})))
    by (vm_compute; reflexivity).
  unfold spread. cbn [own_properties]. symmetry.
  apply insert_union_singleton_l.
Qed.

(** C1, counterexample.  The document of [numeral_url] is the defaults with
    the URL 8080; it is fully populated and every value satisfies its key's
    validator, a non-empty string being all the validator of apiUrl asks.
    [export] writes it, and the import of a copy of that file in replace
    mode, without force and confirmed, converts 8080 to a number, refuses
    it and writes nothing: the importing store loads as the defaults, not
    as the exported document. *)
Lemma round_trip_refuses_numeral_url :
  let D := <["apiUrl" := VStr "8080"]> DEFAULT_CONFIG in
  let outcome := config_import "backup.json" false false true copied in
  loadConfig numeral_url = (Return D, numeral_url)
  ∧ satisfies_validators D
  ∧ files copied !! resolve (cwd copied) "backup.json" =
      files (config_export (Some "backup.json") numeral_url).2
        !! resolve (cwd numeral_url) "backup.json"
  ∧ outcome.1 = Return tt
  ∧ files outcome.2 = files copied
  ∧ console_log "apiUrl: Must be a valid URL string" ∈ console outcome.2
  ∧ loadConfig outcome.2 = (Return DEFAULT_CONFIG, outcome.2)
  ∧ ¬ (loadConfig outcome.2 = (Return D, outcome.2)).
Proof.
  intros D outcome.
  assert (HD : satisfies_validators D).
  { apply satisfies_validators_insert;
      [exact satisfies_validators_DEFAULT_CONFIG | reflexivity]. }
  assert (Hurl : D !! "apiUrl" = Some (VStr "8080"))
    by apply lookup_insert_eq.
  assert (Hfile : files copied !! resolve (cwd copied) "backup.json"
                  = Some (JSONText (VObj D)))
    by (vm_compute; reflexivity).
  destruct (round_trip_refused copied "backup.json" D "8080" HD Hurl)
    as (Hreturn & Hcwd & Hfiles & Hprinted);
    [vm_compute; discriminate | exact Hfile |].
  fold outcome in Hreturn, Hcwd, Hfiles, Hprinted.
  assert (Hdefaults : document outcome.2 = DEFAULT_CONFIG).
  { unfold document, config_file. rewrite Hcwd, Hfiles. reflexivity. }
  split; [rewrite loadConfig_run, document_numeral_url; reflexivity|].
  split; [exact HD|].
  split.
  { rewrite Hfile.
    destruct (config_export_run (Some "backup.json") numeral_url)
      as (_ & _ & ->).
    cbn [default]. rewrite lookup_insert_eq, document_numeral_url.
    fold D. rewrite (satisfies_validators_json D HD). reflexivity. }
  split; [exact Hreturn|]. split; [exact Hfiles|]. split; [exact Hprinted|].
  split; [rewrite loadConfig_run, Hdefaults; reflexivity|].
  rewrite loadConfig_run, Hdefaults. intros Heq.
  assert (Hlookup : DEFAULT_CONFIG !! "apiUrl" = D !! "apiUrl")
    by congruence.
  rewrite Hurl in Hlookup. vm_compute in Hlookup. discriminate Hlookup.
Qed.

(** C1, witness: the document of [themed], exported to backup.json and
    imported from the copy in [restored]. *)
Lemma export_import_round_trip_witness :
  satisfies_validators (<["theme" := VStr "dark"]> DEFAULT_CONFIG)
  ∧ (config_import "backup.json" false false true restored).1 = Return tt
  ∧ loadConfig (config_import "backup.json" false false true restored).2
    = (Return (<["theme" := VStr "dark"]> DEFAULT_CONFIG),
       (config_import "backup.json" false false true restored).2).
Proof.
  assert (HD : satisfies_validators (<["theme" := VStr "dark"]> DEFAULT_CONFIG)).
  { apply satisfies_validators_insert;
      [exact satisfies_validators_DEFAULT_CONFIG | reflexivity]. }
  split; [exact HD|].
  destruct (export_import_round_trip themed restored
              (<["theme" := VStr "dark"]> DEFAULT_CONFIG)
              (Some "backup.json") "backup.json")
    as (url & Hurl & Hreturn & Hround & _).
  - rewrite loadConfig_run, document_themed. reflexivity.
  - exact HD.
  - destruct (config_export_run (Some "backup.json") themed) as (_ & _ & ->).
    rewrite (lookup_insert_eq (files themed)), document_themed.
    rewrite (satisfies_validators_json _ HD).
    vm_compute. reflexivity.
  - split; [exact Hreturn|]. apply Hround.
    rewrite lookup_insert_ne in Hurl by discriminate.
    vm_compute in Hurl. injection Hurl as <-.
    vm_compute. reflexivity.
Defined.

(** C2, witness: the language imported in merge mode over [themed]. *)
Lemma import_merge_replace_witness :
  let outcome := config_import "language.json" true false true with_language in
  outcome.1 = Return tt
  ∧ loadConfig outcome.2 = (Return (document outcome.2), outcome.2)
  ∧ ∀ k, document outcome.2 !! k =
           match ({[ "language" := VStr "fr" ]} : object) !! k with
           | Some v => Some v
           | None => document with_language !! k
           end.
Proof.
  apply (import_merge_replace "language.json" true false true with_language
           {[ "language" := VStr "fr" ]} []).
  - vm_compute. reflexivity.
  - unfold json_object. rewrite omap_singleton_Some with (y := VStr "fr");
      reflexivity.
  - intros _. rewrite document_with_language.
    apply valid_document_json, valid_document_themed.
  - rewrite map_to_list_singleton. vm_compute. reflexivity.
  - split; reflexivity.
Defined.

(** C3, witness: an import file whose colorOutput is no boolean, in merge
    mode without force. *)
Lemma aborted_import_is_atomic_witness :
  let outcome := config_import "settings.json" true false true with_mixed in
  outcome.1 = Return tt
  ∧ files outcome.2 = files with_mixed
  ∧ document outcome.2 = document with_mixed
  ∧ ["colorOutput: Must be true or false"]
    = omap entry_error (map_to_list mixed)
  ∧ (∀ line, line ∈ ["colorOutput: Must be true or false"] →
       console_log line ∈ console outcome.2).
Proof.
  apply (aborted_import_is_atomic "settings.json" true true with_mixed
           (VObj mixed) (map_to_list mixed)
           ["colorOutput: Must be true or false"]).
  - vm_compute. reflexivity.
  - reflexivity.
  - vm_compute. reflexivity.
  - discriminate.
Defined.

(** C6, witness: theme set to neon in a fresh store. *)
Lemma set_rejects_invalid_witness :
  let outcome := config_set "theme" "neon" false fresh in
  outcome.1 = Return tt
  ∧ files outcome.2 = files fresh
  ∧ document outcome.2 = document fresh
  ∧ console outcome.2 =
      [console_error "Must be one of: default, dark, light, rainbow" None].
Proof.
  destruct (set_rejects_invalid "theme" "neon"
              "Must be one of: default, dark, light, rainbow" fresh)
    as (Hr & Hfiles & Hdoc & Hout & _).
  - vm_compute. reflexivity.
  - auto.
Defined.

(** C7, witness: the validator of maxItems. *)
Lemma coercion_before_validation_witness :
  validateConfigValue "maxItems" (VStr "true") =
    Return (Invalid "Must be a number between 1 and 1000")
  ∧ validateConfigValue "maxItems" (VStr "150") =
      Return (Valid (VNum (number_of_Z false 150))).
Proof.
  destruct (coercion_before_validation "maxItems"
              (λ val,
                 match val with
                 | VNum n => Number_isInteger n && gt n (number_of_Z false 0)
                             && le n (number_of_Z false 1000)
                 | _ => false
                 end) eq_refl)
    as (Hval & _ & _ & _ & H150 & _).
  split; [rewrite Hval; reflexivity | exact H150].
Defined.

(** C5, witness: the store [themed] keeps its theme and gets the other
    keys from the defaults. *)
Lemma load_defaulting_witness :
  ∃ doc : object,
    loadConfig themed = (Return doc, themed)
    ∧ doc !! "theme" = Some (VStr "dark")
    ∧ is_Some (doc !! "maxItems").
Proof.
  destruct (load_defaulting themed) as (doc & Hload & Hall & Hkeep & _).
  exists doc. split; [exact Hload|]. split.
  - apply (Hkeep {[ "theme" := VStr "dark" ]}); reflexivity.
  - apply Hall. unfold schema_keys. do 5 right. left.
Defined.

(** C9, witness: maxItems forced to a string that is no number. *)
Lemma force_set_bypasses_validation_witness :
  document (config_set "maxItems" "many" true fresh).2 !! "maxItems"
  = Some (VStr "many").
Proof.
  destruct (force_set_bypasses_validation "maxItems" "many" fresh)
    as (_ & _ & Hkey & _).
  apply Hkey. discriminate.
Defined.

(** C10, witness: a string of two spaces. *)
Lemma numeric_coercion_truncates_witness :
  validateConfigValue "maxItems" (VStr "  ") =
    Return (Invalid "Must be a number between 1 and 1000").
Proof.
  destruct numeric_coercion_truncates as (_ & _ & Hwhite).
  destruct (Hwhite "  " eq_refl) as (_ & _ & Hv). exact Hv.
Defined.

(** C8, witness: the three error paths in a fresh store. *)
Lemma errors_reported_exit_zero_witness :
  (exit_status (config_get (Some "colour") false "simple" fresh).1 = 0%Z
   ∧ files (config_get (Some "colour") false "simple" fresh).2 = files fresh)
  ∧ (exit_status (config_set "theme" "neon" false fresh).1 = 0%Z
     ∧ console_error "Must be one of: default, dark, light, rainbow" None
       ∈ console (config_set "theme" "neon" false fresh).2)
  ∧ (exit_status (config_reset (Some "colour") false true fresh).1 = 0%Z
     ∧ console_error "Unknown configuration key: colour" None
       ∈ console (config_reset (Some "colour") false true fresh).2).
Proof.
  destruct (errors_reported_exit_zero fresh) as (Hget & Hset & Hreset & _).
  repeat apply conj.
  - apply (Hget "colour" "simple"); reflexivity.
  - apply (Hget "colour" "simple"); reflexivity.
  - apply (Hset "theme" "neon"
             "Must be one of: default, dark, light, rainbow").
    vm_compute. reflexivity.
  - apply (Hset "theme" "neon"
             "Must be one of: default, dark, light, rainbow").
    vm_compute. reflexivity.
  - apply (Hreset "colour" false true); reflexivity.
  - apply (Hreset "colour" false true); reflexivity.
Defined.

(** C4, witness: [export] of a fresh store to the default file name. *)
Lemma export_writes_whole_document_witness :
  files (config_export None fresh).2
    !! ["home"; "demo"; "config-export.json"]
  = Some (JSONText (VObj DEFAULT_CONFIG)).
Proof.
  destruct (export_writes_whole_document None fresh)
    as (_ & _ & _ & Hdefault & _).
  apply Hdefault. reflexivity.
Defined.

End Properties.

(** ** Further properties of the command group *)

Module Coverage.
Import JS Config IO Commands Notions Properties.


(** *** Validation *)

Lemma convert_string (s : string) :
  (s = "true" ∧ convert (VStr s) = VBool true)
  ∨ (s = "false" ∧ convert (VStr s) = VBool false)
  ∨ (s ≠ "true" ∧ s ≠ "false" ∧ convert (VStr s) = VNum (parseInt s))
  ∨ (s ≠ "true" ∧ s ≠ "false" ∧ convert (VStr s) = VStr s).
Proof.
  unfold convert. repeat case_bool_decide; subst; auto.
  destruct (negb (isNaN_Number s) && negb (isNaN_parseFloat s)); auto 6.
Qed.

Lemma convert_idempotent (v : value) : convert (convert v) = convert v.
Proof.
  destruct v as [|b|n|s|items|props|name]; try reflexivity.
  destruct (convert_string s) as [[_ ->]|[[_ ->]|[(_ & _ & ->)|(_ & _ & H)]]];
    try reflexivity.
  rewrite H. exact H.
Qed.

(** A value validation returns is accepted as it is. *)
Lemma accepted_again (key : string) (value v : JS.value) :
  validateConfigValue key value = Return (Valid v) →
  validateConfigValue key v = Return (Valid v).
Proof.
  unfold validateConfigValue.
  destruct (lookup_validator key) as [validator|]; [|discriminate].
  destruct (validator (convert value)) as [[|]|e] eqn:Hv; try discriminate.
  intros [= <-]. rewrite convert_idempotent, Hv. reflexivity.
Qed.

(** X1.  Validation is idempotent: the value validation returns for a key
    is accepted for that key as it is.  So what a validated [set] stores
    passes the check [import] applies. *)
Theorem validation_idempotent (key : string) (value v : JS.value) :
  validateConfigValue key value = Return (Valid v) →
  validateConfigValue key v = Return (Valid v).
Proof.
  unfold validateConfigValue.
  destruct (lookup_validator key) as [validator|]; [|discriminate].
  destruct (validator (convert value)) as [[|]|e] eqn:Hv; try discriminate.
  intros [= <-]. rewrite convert_idempotent, Hv. reflexivity.
Qed.

(** X1, witness: the string 150 for maxItems. *)
Lemma validation_idempotent_witness :
  validateConfigValue "maxItems" (VNum (number_of_Z false 150)) =
    Return (Valid (VNum (number_of_Z false 150))).
Proof.
  apply (validation_idempotent "maxItems" (VStr "150")).
  vm_compute. reflexivity.
Defined.


Lemma number_eqb_eq (a b : number) : number_eqb a b = true → a = b.
Proof.
  destruct a as [s|s| |s m e], b as [s'|s'| |s' m' e']; simpl;
    try discriminate; try reflexivity.
  - intros H. apply Bool.eqb_prop in H. congruence.
  - intros H. apply Bool.eqb_prop in H. congruence.
  - rewrite !andb_true_iff. intros [[Hs Hm] He].
    apply Bool.eqb_prop in Hs. apply Pos.eqb_eq in Hm. apply Z.eqb_eq in He.
    congruence.
Qed.

Lemma answers_with_eq (r : result validation) (expected : validation) :
  answers_with r expected = true → r = Return expected.
Proof.
  destruct r as [[[|b|a|s|items|props|name]|m]|e],
           expected as [[|b'|a'|s'|items'|props'|name']|m'];
    simpl; try discriminate.
  - intros H. apply number_eqb_eq in H. congruence.
  - intros H. apply String.eqb_eq in H. congruence.
Qed.

Lemma numerals_checked_ok :
  forallb (λ z, answers_with (validateConfigValue "maxItems" (VStr (numeral z)))
                   (maxItems_answer z)
                && answers_with (validateConfigValue "timeout" (VStr (numeral z)))
                     (timeout_answer z))
          numerals_checked = true.
Proof. vm_compute. reflexivity. Qed.

(** X2.  Bounds of the numeric keys on the command line: for every integer
    from -1000 to 5000, validation of its decimal numeral for maxItems
    gives the number when it lies between 1 and 1000, both included, and
    the suggestion otherwise; for timeout it gives the number when it is at
    least 1, and the suggestion otherwise. *)
Theorem numeric_keys_bounds (z : Z) :
  (-1000 ≤ z ≤ 5000)%Z →
  validateConfigValue "maxItems" (VStr (numeral z)) = Return (maxItems_answer z)
  ∧ validateConfigValue "timeout" (VStr (numeral z)) = Return (timeout_answer z).
Proof.
  intros Hz.
  assert (Hin : In z numerals_checked).
  { unfold numerals_checked. apply in_map_iff.
    exists (Z.to_nat (z + 1000)). split; [lia|].
    apply in_seq. lia. }
  pose proof (proj1 (forallb_forall _ _) numerals_checked_ok z Hin) as Hok.
  apply andb_true_iff in Hok as [Hmax Htime].
  split; apply answers_with_eq; assumption.
Qed.

(** X2, witness: the upper bound of maxItems and the number after it. *)
Lemma numeric_keys_bounds_witness :
  validateConfigValue "maxItems" (VStr "1000") =
    Return (Valid (VNum (number_of_Z false 1000)))
  ∧ validateConfigValue "maxItems" (VStr "1001") =
      Return (Invalid "Must be a number between 1 and 1000")
  ∧ validateConfigValue "timeout" (VStr "0") =
      Return (Invalid "Must be a positive number").
Proof.
  split; [|split].
  - apply (numeric_keys_bounds 1000). lia.
  - apply (numeric_keys_bounds 1001). lia.
  - apply (numeric_keys_bounds 0). lia.
Defined.

Lemma includes_true (choices : list string) (val : value) :
  includes choices val = true ↔ ∃ s, s ∈ choices ∧ val = VStr s.
Proof.
  destruct val as [|b|n|s|items|props|name]; simpl;
    try (split; [discriminate | intros (s' & _ & H); discriminate H]).
  rewrite bool_decide_eq_true. split.
  - intros Hs. eauto.
  - intros (s' & Hs' & H). injection H as ->. exact Hs'.
Qed.

(** A listed choice is no boolean and no number for the conversion. *)
Lemma enum_choice_unconverted (key s : string) (choices : list string) :
  (key, choices) ∈ enum_keys → s ∈ choices → convert (VStr s) = VStr s.
Proof.
  intros Hkey Hs. unfold enum_keys in Hkey.
  repeat (apply elem_of_cons in Hkey as [[= -> ->]|Hkey];
          [repeat (apply elem_of_cons in Hs as [->|Hs]; [reflexivity|]);
           inversion Hs|]).
  inversion Hkey.
Qed.

Lemma enum_key_validator (key : string) (choices : list string) :
  (key, choices) ∈ enum_keys → validators !! key = Some (includes choices).
Proof.
  intros Hkey. unfold enum_keys in Hkey.
  repeat (apply elem_of_cons in Hkey as [[= -> ->]|Hkey]; [reflexivity|]).
  inversion Hkey.
Qed.

(** X3.  The keys theme, dateFormat, defaultPriority and language accept
    exactly the strings of their list, and return them unchanged: nothing
    else, of any type, is accepted. *)
Theorem enum_keys_accept_listed (key : string) (choices : list string)
    (value v : JS.value) :
  (key, choices) ∈ enum_keys →
  validateConfigValue key value = Return (Valid v)
  ↔ ∃ s, s ∈ choices ∧ value = VStr s ∧ v = VStr s.
Proof.
  intros Hkey.
  rewrite (validateConfigValue_own _ _ _ (enum_key_validator _ _ Hkey)).
  split.
  - destruct (includes choices (convert value)) eqn:Hinc; [|discriminate].
    intros [= <-]. apply includes_true in Hinc as (s & Hs & Hconv).
    destruct value as [|b|n|s0|items|props|name]; try discriminate Hconv.
    destruct (convert_string s0)
      as [[_ H]|[[_ H]|[(_ & _ & H)|(_ & _ & H)]]];
      rewrite H in Hconv; try discriminate Hconv.
    injection Hconv as <-. exists s0. rewrite H. auto.
  - intros (s & Hs & -> & ->).
    rewrite (enum_choice_unconverted _ _ _ Hkey Hs).
    replace (includes choices (VStr s)) with true; [reflexivity|].
    symmetry. apply includes_true. eauto.
Qed.

(** X3, witness: the theme rainbow. *)
Lemma enum_keys_accept_listed_witness :
  validateConfigValue "theme" (VStr "rainbow") = Return (Valid (VStr "rainbow")).
Proof.
  apply (enum_keys_accept_listed "theme"
           ["default"; "dark"; "light"; "rainbow"]).
  - left.
  - exists "rainbow". split; [|split; reflexivity]. do 3 right. left.
Defined.

Lemma boolean_key_validator (key : string) :
  key ∈ boolean_keys → validators !! key = Some is_boolean.
Proof.
  intros Hkey. unfold boolean_keys in Hkey.
  repeat (apply elem_of_cons in Hkey as [->|Hkey]; [reflexivity|]).
  inversion Hkey.
Qed.

(** X4.  The keys colorOutput, autoSave and debug accept a boolean, and the
    strings true and false, which they turn into the boolean; nothing else
    is accepted (not 1, 0, yes or an upper-case TRUE). *)
Theorem boolean_keys_accept_booleans (key : string) (value v : JS.value) :
  key ∈ boolean_keys →
  validateConfigValue key value = Return (Valid v)
  ↔ ∃ b : bool,
      v = VBool b
      ∧ (value = VBool b ∨ value = VStr (if b then "true" else "false")).
Proof.
  intros Hkey.
  rewrite (validateConfigValue_own _ _ _ (boolean_key_validator _ Hkey)).
  split.
  - destruct (is_boolean (convert value)) eqn:Hb; [|discriminate].
    intros [= <-].
    destruct value as [|b|n|s|items|props|name]; try discriminate Hb.
    + exists b. auto.
    + destruct (convert_string s)
        as [[-> H]|[[-> H]|[(_ & _ & H)|(_ & _ & H)]]];
        rewrite H in Hb |- *; try discriminate Hb.
      * exists true. auto.
      * exists false. auto.
  - intros (b & Hv & Hvalue). subst v.
    destruct Hvalue as [Hvalue|Hvalue]; subst value; [reflexivity|].
    destruct b; reflexivity.
Qed.

(** X4, witness: the string false for debug. *)
Lemma boolean_keys_accept_booleans_witness :
  validateConfigValue "debug" (VStr "false") = Return (Valid (VBool false)).
Proof.
  apply (boolean_keys_accept_booleans "debug").
  - do 2 right. left.
  - exists false. auto.
Defined.


(** *** What the actions write *)

Section Confined.
Context (dir : path) (allowed : path → Prop).

Lemma confined_ret {A} (a : A) : confined dir allowed (mret a).
Proof. intros w Hw. split; [exact Hw|reflexivity]. Qed.

Lemma confined_throw {A} (e : exn) : confined dir allowed (@throw A e).
Proof. intros w Hw. split; [exact Hw|reflexivity]. Qed.

Lemma confined_lift {A} (r : result A) : confined dir allowed (lift r).
Proof. intros w Hw. split; [exact Hw|reflexivity]. Qed.

Lemma confined_emit (e : event) : confined dir allowed (emit e).
Proof. intros w Hw. split; [exact Hw|reflexivity]. Qed.

Lemma confined_bind {A B} (m : io A) (k : A → io B) :
  confined dir allowed m → (∀ a, confined dir allowed (k a)) →
  confined dir allowed (m ≫= k).
Proof.
  intros Hm Hk w Hw. unfold mbind, io_bind.
  destruct (Hm w Hw) as [Hdir Hfiles].
  destruct (m w) as [[a|e] w']; simpl in *; [|auto].
  destruct (Hk a w' Hdir) as [Hdir' Hfiles'].
  split; [exact Hdir'|]. intros p Hp.
  rewrite (Hfiles' p Hp). apply Hfiles, Hp.
Qed.

Lemma confined_try_catch {A} (body : io A) (handler : exn → io A) :
  confined dir allowed body → (∀ e, confined dir allowed (handler e)) →
  confined dir allowed (try_catch body handler).
Proof.
  intros Hm Hk w Hw. unfold try_catch.
  destruct (Hm w Hw) as [Hdir Hfiles].
  destruct (body w) as [[a|e] w']; simpl in *; [auto|].
  destruct (Hk e w' Hdir) as [Hdir' Hfiles'].
  split; [exact Hdir'|]. intros p Hp.
  rewrite (Hfiles' p Hp). apply Hfiles, Hp.
Qed.

(** The path a name resolves to is the one it resolves to in [dir]. *)
Lemma confined_resolve {B} (name : string) (k : path → io B) :
  confined dir allowed (k (resolve dir name)) →
  confined dir allowed (path_resolve name ≫= k).
Proof.
  intros Hk w Hw. unfold mbind, io_bind, path_resolve. rewrite Hw.
  apply Hk, Hw.
Qed.

Lemma confined_readFile (p : path) : confined dir allowed (fs_readFile p).
Proof.
  intros w Hw. unfold fs_readFile.
  destruct (files w !! p); (split; [exact Hw|reflexivity]).
Qed.

Lemma confined_access (p : path) : confined dir allowed (fs_access p).
Proof.
  intros w Hw. unfold fs_access.
  destruct (files w !! p); (split; [exact Hw|reflexivity]).
Qed.

Lemma confined_JSON_parse (data : file_data) :
  confined dir allowed (JSON_parse data).
Proof. destruct data; [apply confined_throw | apply confined_ret]. Qed.

Lemma confined_writeFile (p : path) (data : option file_data) :
  allowed p → confined dir allowed (fs_writeFile p data).
Proof.
  intros Hp w Hw. unfold fs_writeFile.
  destruct data as [d|]; (split; [exact Hw|]); [|reflexivity].
  intros q Hq. simpl. apply lookup_insert_ne. intros ->. exact (Hq Hp).
Qed.

Lemma confined_loadConfig : confined dir allowed loadConfig.
Proof.
  intros w Hw. rewrite loadConfig_run. split; [exact Hw|reflexivity].
Qed.

Lemma confined_saveConfig (config : value) :
  allowed (resolve dir "./config.json") →
  confined dir allowed (saveConfig config).
Proof.
  intros Hp. unfold saveConfig, CONFIG_FILE.
  apply confined_resolve, confined_writeFile, Hp.
Qed.

Lemma confined_confirm (force : bool) (message : string) (answer : bool) :
  confined dir allowed (confirm force message answer).
Proof.
  unfold confirm. destruct force; simpl; [apply confined_ret|].
  apply confined_bind; [apply confined_emit|intros _; apply confined_ret].
Qed.

Lemma confined_log_each (lines : list string) :
  confined dir allowed (log_each lines).
Proof.
  induction lines as [|line lines IH]; [apply confined_ret|].
  simpl. apply confined_bind; [apply confined_emit|intros _; exact IH].
Qed.
End Confined.

(** Steps through an action: binds, branches, and the primitives above. *)
Ltac confine_step :=
  lazymatch goal with
  | |- confined _ _ (mbind _ (path_resolve _)) => apply confined_resolve
  | |- confined _ _ (mbind _ _) => apply confined_bind; [|intros ?]
  | |- confined _ _ (try_catch _ _) => apply confined_try_catch; [|intros ?]
  | |- confined _ _ (mret _) => apply confined_ret
  | |- confined _ _ (throw _) => apply confined_throw
  | |- confined _ _ (lift _) => apply confined_lift
  | |- confined _ _ (emit _) => apply confined_emit
  | |- confined _ _ loadConfig => apply confined_loadConfig
  | |- confined _ _ (saveConfig _) => apply confined_saveConfig; assumption
  | |- confined _ _ (confirm _ _ _) => apply confined_confirm
  | |- confined _ _ (log_each _) => apply confined_log_each
  | |- confined _ _ (fs_readFile _) => apply confined_readFile
  | |- confined _ _ (fs_access _) => apply confined_access
  | |- confined _ _ (fs_writeFile _ _) => apply confined_writeFile; assumption
  | |- confined _ _ (JSON_parse _) => apply confined_JSON_parse
  | |- confined _ _ (match ?x with _ => _ end) => destruct x
  | |- confined _ _ (let _ := _ in _) => cbv zeta
  end.

Ltac confine := repeat confine_step.

Lemma confined_nothing {A} (m : io A) (w : world) :
  confined (cwd w) (λ _, False) m → files (m w).2 = files w.
Proof.
  intros Hm. apply map_eq. intros p.
  apply (proj2 (Hm w eq_refl) p). tauto.
Qed.

Lemma confined_only {A} (m : io A) (w : world) (target p : path) :
  confined (cwd w) (λ q, q = target) m → p ≠ target →
  files (m w).2 !! p = files w !! p.
Proof. intros Hm Hp. apply (proj2 (Hm w eq_refl) p), Hp. Qed.

(** X5.  What the actions write.  [get] and [list] leave the files as they
    are; [set], [reset], [import] and [setup] leave every file but the
    configuration file as it is; [export] leaves every file but the one it
    is given (config-export.json by default).  This holds for every
    argument, option and answer, and on every path, errors included. *)
Theorem actions_write_only (w : world) (p : path) :
  (∀ key all format, files (config_get key all format w).2 = files w)
  ∧ (∀ format, files (config_list format w).2 = files w)
  ∧ (p ≠ config_file w →
     (∀ key value force,
        files (config_set key value force w).2 !! p = files w !! p)
     ∧ (∀ key force answer,
          files (config_reset key force answer w).2 !! p = files w !! p)
     ∧ (∀ filename merge force answer,
          files (config_import filename merge force answer w).2 !! p
          = files w !! p)
     ∧ (∀ answers, files (config_setup answers w).2 !! p = files w !! p))
  ∧ (∀ filename,
       p ≠ resolve (cwd w) (default "config-export.json" filename) →
       files (config_export filename w).2 !! p = files w !! p).
Proof.
  assert (Hconfig : (λ q, q = config_file w) (resolve (cwd w) "./config.json"))
    by reflexivity.
  repeat apply conj.
  - intros. apply confined_nothing. unfold config_get. confine.
  - intros. apply confined_nothing. unfold config_list. confine.
  - intros Hp. repeat apply conj; intros;
      apply (confined_only _ _ (config_file w)); try exact Hp.
    + unfold config_set. confine.
    + unfold config_reset. confine.
    + unfold config_import. confine.
    + unfold config_setup. confine.
  - intros filename Hp.
    apply (confined_only _ _
             (resolve (cwd w) (default "config-export.json" filename)));
      [|exact Hp].
    assert (Htarget :
      (λ q, q = resolve (cwd w) (default "config-export.json" filename))
        (resolve (cwd w) (default "config-export.json" filename)))
      by reflexivity.
    unfold config_export. confine.
Qed.

(** X5, witness: an import that goes through leaves the imported file as
    it is. *)
Lemma actions_write_only_witness :
  files (config_import "language.json" true true true with_language).2
    !! ["home"; "demo"; "language.json"]
  = Some (JSONText (VObj {[ "language" := VStr "fr" ]})).
Proof.
  destruct (actions_write_only with_language ["home"; "demo"; "language.json"])
    as (_ & _ & Hconfig & _).
  destruct Hconfig as (_ & _ & Himport & _); [discriminate|].
  rewrite Himport. vm_compute. reflexivity.
Defined.


(** *** How the actions end *)

Lemma try_catch_returns (body : io unit) (handler : exn → io unit) (w : world) :
  (∀ e w', (handler e w').1 = Return tt) →
  (try_catch body handler w).1 = Return tt.
Proof.
  intros Hh. unfold try_catch.
  destruct (body w) as [[[]|e] w']; [reflexivity|apply Hh].
Qed.

(** X6.  Every action of the command group returns, whatever its
    arguments, the files and the answers: each failure inside it (a missing
    or malformed file, a validation that throws) is caught and printed.  So
    the process ends with status 0 after every [config] command. *)
Theorem actions_always_return (w : world) :
  (∀ key all format, exit_status (config_get key all format w).1 = 0%Z)
  ∧ (∀ format, exit_status (config_list format w).1 = 0%Z)
  ∧ (∀ key value force, exit_status (config_set key value force w).1 = 0%Z)
  ∧ (∀ key force answer,
       exit_status (config_reset key force answer w).1 = 0%Z)
  ∧ (∀ filename, exit_status (config_export filename w).1 = 0%Z)
  ∧ (∀ filename merge force answer,
       exit_status (config_import filename merge force answer w).1 = 0%Z)
  ∧ (∀ answers, exit_status (config_setup answers w).1 = 0%Z).
Proof.
  repeat apply conj; intros.
  - unfold config_get, mbind, io_bind, emit.
    rewrite try_catch_returns; reflexivity.
  - unfold config_list, mbind, io_bind, emit at 1.
    rewrite try_catch_returns; reflexivity.
  - unfold config_set. rewrite try_catch_returns; reflexivity.
  - unfold config_reset. rewrite try_catch_returns; reflexivity.
  - unfold config_export, mbind, io_bind, emit at 1.
    rewrite try_catch_returns; reflexivity.
  - unfold config_import. rewrite try_catch_returns; reflexivity.
  - unfold config_setup, mbind, io_bind, emit at 1.
    rewrite try_catch_returns; reflexivity.
Qed.


(** *** [set] and the document *)

Lemma json_object_insert (m : object) (k : string) (v : value) :
  json_object m → to_json v = Some v → json_object (<[k := v]> m).
Proof.
  intros Hm Hv. apply json_object_intro. intros k' v'.
  rewrite lookup_insert_Some. intros [[_ <-]|[_ Hk']]; [exact Hv|].
  apply (json_object_lookup m k' v' Hm Hk').
Qed.

Lemma insert_union_DEFAULT_CONFIG (D : object) (k : string) (v : value) :
  (∀ k', k' ∈ schema_keys → is_Some (D !! k')) →
  <[k := v]> D ∪ DEFAULT_CONFIG = <[k := v]> D.
Proof.
  intros HD. apply populated_union_DEFAULT_CONFIG. intros k' Hk'.
  rewrite lookup_insert_is_Some. destruct (decide (k = k')); auto.
Qed.

(** The document after a [set] that assigns a JSON value. *)
Lemma config_set_document (key value : string) (force : bool) (v : JS.value)
    (w : world) :
  (if force then v = VStr value
   else validateConfigValue key (VStr value) = Return (Valid v)) →
  key ≠ "__proto__" → to_json v = Some v → json_object (document w) →
  document (config_set key value force w).2 = <[key := v]> (document w).
Proof.
  intros Hv Hkey Hjson Hdoc.
  destruct (config_set_assigns key value force v w Hv) as (_ & Hcwd & Hfiles).
  rewrite (document_after_save _ _ _ Hcwd Hfiles).
  unfold Assign. rewrite bool_decide_eq_false_2 by exact Hkey. cbn [andb].
  rewrite (json_object_insert _ _ _ Hdoc Hjson).
  apply insert_union_DEFAULT_CONFIG, document_populated.
Qed.

Lemma schema_key_not_proto (key : string) :
  key ∈ schema_keys → key ≠ "__proto__".
Proof.
  intros Hkey ->. unfold schema_keys in Hkey.
  repeat (apply elem_of_cons in Hkey as [Hkey|Hkey]; [discriminate Hkey|]).
  inversion Hkey.
Qed.

(** X7.  [set] changes one key.  When the stored document holds JSON
    values, a [set] of a schema key that passes validation leaves a store
    whose document is the former one with the key at the validated value,
    and a forced [set] one with the key at the raw string: every other key
    keeps its value. *)
Theorem set_changes_one_key (key value : string) (w : world) :
  json_object (document w) →
  (∀ v, key ∈ schema_keys →
        validateConfigValue key (VStr value) = Return (Valid v) →
        loadConfig (config_set key value false w).2
        = (Return (<[key := v]> (document w)), (config_set key value false w).2))
  ∧ (key ≠ "__proto__" →
     loadConfig (config_set key value true w).2
     = (Return (<[key := VStr value]> (document w)),
        (config_set key value true w).2)).
Proof.
  intros Hdoc. split.
  - intros v Hkey Hv. rewrite loadConfig_run. f_equal. f_equal.
    apply (config_set_document key value false v w Hv).
    + apply schema_key_not_proto, Hkey.
    + apply (valid_value_json key v v Hkey), (accepted_again _ _ _ Hv).
    + exact Hdoc.
  - intros Hkey. rewrite loadConfig_run. f_equal. f_equal.
    apply (config_set_document key value true (VStr value) w);
      [reflexivity | exact Hkey | reflexivity | exact Hdoc].
Qed.

(** X7, witness: the language set in the store [themed]. *)
Lemma set_changes_one_key_witness :
  loadConfig (config_set "language" "de" false themed).2
  = (Return (<["language" := VStr "de"]> (document themed)),
     (config_set "language" "de" false themed).2).
Proof.
  destruct (set_changes_one_key "language" "de" themed) as [Hset _].
  - rewrite document_themed.
    apply valid_document_json, valid_document_themed.
  - apply Hset; [|vm_compute; reflexivity].
    unfold schema_keys. do 8 right. left.
Defined.

(** X8.  A validated [set] keeps the document valid: when the document of
    the store is valid and [set] without force accepts a value for a schema
    key, the document of the store it leaves is valid. *)
Theorem validated_set_keeps_valid (key value : string) (v : JS.value)
    (w : world) :
  valid_document (document w) →
  key ∈ schema_keys →
  validateConfigValue key (VStr value) = Return (Valid v) →
  valid_document (document (config_set key value false w).2).
Proof.
  intros Hvalid Hkey Hv.
  rewrite (config_set_document key value false v w Hv).
  - apply (valid_document_insert _ _ _ v Hvalid Hkey), (accepted_again _ _ _ Hv).
  - apply schema_key_not_proto, Hkey.
  - apply (valid_value_json key v v Hkey), (accepted_again _ _ _ Hv).
  - apply valid_document_json, Hvalid.
Qed.

(** X8, witness: maxItems set to 250 in the store [themed]. *)
Lemma validated_set_keeps_valid_witness :
  valid_document (document (config_set "maxItems" "250" false themed).2).
Proof.
  apply (validated_set_keeps_valid "maxItems" "250"
           (VNum (number_of_Z false 250))).
  - rewrite document_themed. exact valid_document_themed.
  - unfold schema_keys. do 5 right. left.
  - vm_compute. reflexivity.
Defined.

(** X9.  The schema is not closed for a [set] without force: the names
    constructor and toString, which every object inherits, pass for keys
    with a validator that accepts every value; the value is stored under
    the name, and the document of the store is then not valid. *)
Theorem unforced_set_accepts_inherited_names (key value : string) (w : world) :
  key = "constructor" ∨ key = "toString" →
  (key ∉ schema_keys)
  ∧ validateConfigValue key (VStr value) =
      Return (Valid (convert (VStr value)))
  ∧ is_Some (document (config_set key value false w).2 !! key)
  ∧ ¬ valid_document (document (config_set key value false w).2).
Proof.
  intros Hkey.
  assert (Hnot : key ∉ schema_keys).
  { intros Hin. unfold schema_keys in Hin.
    destruct Hkey as [-> | ->];
      repeat (apply elem_of_cons in Hin as [Hin|Hin]; [discriminate Hin|]);
      inversion Hin. }
  assert (Hv : validateConfigValue key (VStr value) =
                 Return (Valid (convert (VStr value)))).
  { destruct Hkey as [-> | ->]; reflexivity. }
  assert (Hsome : is_Some (document (config_set key value false w).2 !! key)).
  { destruct (config_set_assigns key value false _ w Hv) as (_ & Hcwd & Hfiles).
    rewrite (document_after_save _ _ _ Hcwd Hfiles).
    assert (Hjson : is_Some (to_json (convert (VStr value)))).
    { destruct (convert_string value)
        as [[_ ->]|[[_ ->]|[(_ & _ & ->)|(_ & _ & ->)]]]; simpl; eauto.
      destruct (parseInt value); simpl; eauto. }
    destruct Hjson as [json Hjson]. exists json.
    apply lookup_union_Some_l. rewrite lookup_omap, Assign_lookup.
    - exact Hjson.
    - destruct Hkey as [-> | ->]; discriminate. }
  repeat split; try assumption.
  intros [Hdom _]. apply Hnot, Hdom, Hsome.
Qed.

(** X9, witness: toString set to a string. *)
Lemma unforced_set_accepts_inherited_names_witness :
  is_Some (document (config_set "toString" "text" false fresh).2 !! "toString")
  ∧ ¬ valid_document (document (config_set "toString" "text" false fresh).2).
Proof.
  destruct (unforced_set_accepts_inherited_names "toString" "text" fresh)
    as (_ & _ & Hsome & Hnot); auto.
Defined.


(** *** [reset] *)

Lemma default_key_not_empty (key : string) (d : value) :
  DEFAULT_CONFIG !! key = Some d → is_empty key = false.
Proof. destruct key; [intros H; vm_compute in H; discriminate H|reflexivity]. Qed.

Lemma default_key_not_proto (key : string) (d : value) :
  DEFAULT_CONFIG !! key = Some d → key ≠ "__proto__".
Proof. intros H ->. vm_compute in H. discriminate H. Qed.

(** [reset --key] of a key of [DEFAULT_CONFIG], forced or confirmed. *)
Lemma config_reset_key_run (key : string) (force answer : bool) (d : value)
    (w : world) :
  DEFAULT_CONFIG !! key = Some d →
  force = true ∨ answer = true →
  let outcome := config_reset (Some key) force answer w in
  outcome.1 = Return tt
  ∧ cwd outcome.2 = cwd w
  ∧ files outcome.2 =
      <[config_file w :=
          JSONText (VObj (omap to_json (<[key := d]> (document w))))]> (files w).
Proof.
  intros Hd Hyes. unfold config_reset.
  rewrite (truthy_Some key (default_key_not_empty key d Hd)).
  run_io. rewrite loadConfig_run. cbv beta iota.
  unfold HasProperty, Get, Assign. rewrite Hd.
  rewrite (bool_decide_eq_true_2 (is_Some (Some d))) by eauto.
  rewrite (bool_decide_eq_false_2 (key = "__proto__"))
    by exact (default_key_not_proto key d Hd).
  cbn [orb andb negb]. unfold confirm.
  destruct force; cbn [negb]; run_io;
    [|destruct Hyes as [Hyes|Hyes]; [discriminate Hyes|subst answer]];
    cbn [negb];
    rewrite saveConfig_run, to_json_object; repeat split; reflexivity.
Qed.

(** [reset] without a key, forced or confirmed. *)
Lemma config_reset_all_run (key : option string) (force answer : bool)
    (w : world) :
  truthy key = None →
  force = true ∨ answer = true →
  let outcome := config_reset key force answer w in
  outcome.1 = Return tt
  ∧ cwd outcome.2 = cwd w
  ∧ files outcome.2 =
      <[config_file w := JSONText (VObj DEFAULT_CONFIG)]> (files w).
Proof.
  intros Hkey Hyes. unfold config_reset. rewrite Hkey.
  run_io. rewrite loadConfig_run. cbv beta iota. unfold confirm.
  destruct force; cbn [negb]; run_io;
    [|destruct Hyes as [Hyes|Hyes]; [discriminate Hyes|subst answer]];
    cbn [negb];
    rewrite saveConfig_run, to_json_object, json_object_DEFAULT_CONFIG;
    repeat split; reflexivity.
Qed.

(** X10.  [reset --key] changes one key: for a key of the schema, forced or
    confirmed, and a stored document of JSON values, the store it leaves
    loads as the former document with the key at its default; every other
    key keeps its value. *)
Theorem reset_key_restores_default (key : string) (force answer : bool)
    (d : value) (w : world) :
  DEFAULT_CONFIG !! key = Some d →
  force = true ∨ answer = true →
  json_object (document w) →
  loadConfig (config_reset (Some key) force answer w).2
  = (Return (<[key := d]> (document w)),
     (config_reset (Some key) force answer w).2).
Proof.
  intros Hd Hyes Hdoc.
  destruct (config_reset_key_run key force answer d w Hd Hyes)
    as (_ & Hcwd & Hfiles).
  rewrite loadConfig_run. f_equal. f_equal.
  rewrite (document_after_save _ _ _ Hcwd Hfiles).
  rewrite (json_object_insert _ _ _ Hdoc
             (json_object_lookup _ _ _ json_object_DEFAULT_CONFIG Hd)).
  apply insert_union_DEFAULT_CONFIG, document_populated.
Qed.

(** X10, witness: the theme of [themed] reset on confirmation. *)
Lemma reset_key_restores_default_witness :
  loadConfig (config_reset (Some "theme") false true themed).2
  = (Return (<["theme" := VStr "default"]> (document themed)),
     (config_reset (Some "theme") false true themed).2).
Proof.
  apply (reset_key_restores_default "theme" false true (VStr "default")).
  - vm_compute. reflexivity.
  - right. reflexivity.
  - rewrite document_themed. apply valid_document_json, valid_document_themed.
Defined.

(** X11.  [reset] without a key, or with an empty one, forced or confirmed,
    writes [DEFAULT_CONFIG] to the configuration file whatever the file
    held, text that does not parse included, and the store then loads as
    the defaults. *)
Theorem reset_all_restores_defaults (key : option string)
    (force answer : bool) (w : world) :
  truthy key = None →
  force = true ∨ answer = true →
  files (config_reset key force answer w).2 !! config_file w
  = Some (JSONText (VObj DEFAULT_CONFIG))
  ∧ loadConfig (config_reset key force answer w).2
    = (Return DEFAULT_CONFIG, (config_reset key force answer w).2).
Proof.
  intros Hkey Hyes.
  destruct (config_reset_all_run key force answer w Hkey Hyes)
    as (_ & Hcwd & Hfiles).
  split.
  - rewrite Hfiles. apply lookup_insert_eq.
  - rewrite loadConfig_run. f_equal. f_equal.
    rewrite (document_after_save _ _ _ Hcwd Hfiles).
    apply map_union_idemp.
Qed.

(** X11, witness: a forced reset with the empty key. *)
Lemma reset_all_restores_defaults_witness :
  loadConfig (config_reset (Some EmptyString) true false themed).2
  = (Return DEFAULT_CONFIG,
     (config_reset (Some EmptyString) true false themed).2).
Proof.
  apply (reset_all_restores_defaults (Some EmptyString) true false themed).
  - reflexivity.
  - left. reflexivity.
Defined.

Lemma omap_to_json_native (m : object) (key : string) :
  key ≠ "__proto__" →
  omap to_json (<[key := VNative key]> m) = delete key (omap to_json m).
Proof.
  intros Hkey. apply map_eq. intros k.
  rewrite lookup_omap. destruct (decide (key = k)) as [<-|Hk].
  - rewrite lookup_insert_eq, lookup_delete_eq. simpl.
    rewrite bool_decide_eq_false_2 by exact Hkey. reflexivity.
  - rewrite lookup_insert_ne, lookup_delete_ne by exact Hk.
    rewrite lookup_omap. reflexivity.
Qed.

Lemma inherited_not_default (key : string) :
  inherited key = true → DEFAULT_CONFIG !! key = None.
Proof.
  unfold inherited, Object_prototype_keys. intros Hin.
  apply bool_decide_eq_true_1 in Hin.
  repeat (apply elem_of_cons in Hin as [->|Hin]; [vm_compute; reflexivity|]).
  inversion Hin.
Qed.

(** X12.  [reset --key] takes the names every object inherits for keys of
    [DEFAULT_CONFIG]: for such a name other than [__proto__] it assigns the
    inherited function, which serialisation leaves out, so that the store
    it leaves loads as the former document without the name. *)
Theorem reset_inherited_name_removes (key : string) (force answer : bool)
    (w : world) :
  inherited key = true → key ≠ "__proto__" →
  force = true ∨ answer = true →
  json_object (document w) →
  loadConfig (config_reset (Some key) force answer w).2
  = (Return (delete key (document w)),
     (config_reset (Some key) force answer w).2).
Proof.
  intros Hin Hkey Hyes Hdoc.
  assert (Hnone := inherited_not_default key Hin).
  assert (Hnonempty : is_empty key = false).
  { destruct key; [vm_compute in Hin; discriminate Hin|reflexivity]. }
  assert (Hrun : cwd (config_reset (Some key) force answer w).2 = cwd w
                 ∧ files (config_reset (Some key) force answer w).2 =
                     <[config_file w :=
                         JSONText (VObj (delete key (document w)))]> (files w)).
  { unfold config_reset. rewrite (truthy_Some key Hnonempty).
    run_io. rewrite loadConfig_run. cbv beta iota.
    unfold HasProperty, Get, Assign. rewrite Hnone, Hin.
    rewrite (bool_decide_eq_false_2 (key = "__proto__")) by exact Hkey.
    rewrite orb_true_r. cbn [andb negb]. unfold confirm.
    destruct force; cbn [negb]; run_io;
      [|destruct Hyes as [Hyes|Hyes]; [discriminate Hyes|subst answer]];
      cbn [negb];
      rewrite saveConfig_run, to_json_object,
        (omap_to_json_native _ _ Hkey), Hdoc; split; reflexivity. }
  destruct Hrun as [Hcwd Hfiles].
  rewrite loadConfig_run. f_equal. f_equal.
  rewrite (document_after_save _ _ _ Hcwd Hfiles).
  apply populated_union_DEFAULT_CONFIG. intros k Hk.
  rewrite lookup_delete_ne.
  - apply document_populated, Hk.
  - intros <-. apply dom_DEFAULT_CONFIG in Hk. rewrite Hnone in Hk.
    destruct Hk as [? [=]].
Qed.

(** X12, witness: [toString] stored by a [set] and removed by a reset. *)
Lemma reset_inherited_name_removes_witness :
  loadConfig
    (config_reset (Some "toString") true false
       (config_set "toString" "text" false fresh).2).2
  = (Return (delete "toString"
               (document (config_set "toString" "text" false fresh).2)),
     (config_reset (Some "toString") true false
        (config_set "toString" "text" false fresh).2).2).
Proof.
  apply (reset_inherited_name_removes "toString" true false).
  - reflexivity.
  - discriminate.
  - left. reflexivity.
  - rewrite (config_set_document "toString" "text" false (VStr "text") fresh).
    + apply json_object_insert; [|reflexivity].
      apply json_object_DEFAULT_CONFIG.
    + reflexivity.
    + discriminate.
    + reflexivity.
    + apply json_object_DEFAULT_CONFIG.
Defined.

(** *** A declined confirmation *)

Lemma config_reset_declined (key : option string) (w : world) :
  cwd (config_reset key false false w).2 = cwd w
  ∧ files (config_reset key false false w).2 = files w.
Proof.
  unfold config_reset. run_io. rewrite loadConfig_run. cbv beta iota.
  destruct (truthy key) as [k|]; [destruct (HasProperty DEFAULT_CONFIG k)|];
    cbn [negb]; split; reflexivity.
Qed.

Lemma config_import_declined (filename : string) (merge : bool) (w : world) :
  cwd (config_import filename merge false false w).2 = cwd w
  ∧ files (config_import filename merge false false w).2 = files w.
Proof.
  unfold config_import. run_io. cbn [cwd files console].
  destruct (files w !! resolve (cwd w) filename) as [[text|config]|] eqn:Hfile;
    cbn [negb cwd files console]; try rewrite Hfile; cbv beta iota;
    try (split; reflexivity).
  destruct (Object_entries config) as [entries|e]; [|split; reflexivity].
  destruct (validate_each entries []) as [errors|e]; [|split; reflexivity].
  destruct (bool_decide (0 < length errors)); cbn [andb].
  - rewrite log_each_run. split; reflexivity.
  - destruct merge; [rewrite loadConfig_run|]; unfold confirm; cbn [negb];
      run_io; split; reflexivity.
Qed.

(** X13.  A declined confirmation changes nothing: [reset] and [import]
    that are not forced, when the answer to the prompt is no, leave every
    file as it was, whatever the key, the file to import and the
    mode. *)
Theorem declined_changes_nothing (w : world) :
  (∀ key, files (config_reset key false false w).2 = files w
          ∧ document (config_reset key false false w).2 = document w)
  ∧ (∀ filename merge,
       files (config_import filename merge false false w).2 = files w
       ∧ document (config_import filename merge false false w).2 = document w).
Proof.
  split.
  - intros key. destruct (config_reset_declined key w) as [Hcwd Hfiles].
    split; [exact Hfiles|]. unfold document, config_file.
    rewrite Hcwd, Hfiles. reflexivity.
  - intros filename merge.
    destruct (config_import_declined filename merge w) as [Hcwd Hfiles].
    split; [exact Hfiles|]. unfold document, config_file.
    rewrite Hcwd, Hfiles. reflexivity.
Qed.


(** *** [export], [saveConfig] and the document *)

Lemma document_files (w w' : world) :
  cwd w' = cwd w →
  files w' !! config_file w = files w !! config_file w →
  document w' = document w.
Proof.
  intros Hcwd Hfile. unfold document, config_file in *.
  rewrite Hcwd, Hfile. reflexivity.
Qed.

(** X14.  [export] leaves the document as it is, also when the file it
    writes is the configuration file itself: the store then holds the whole
    document, defaults included, and loads as before. *)
Theorem export_keeps_document (filename : option string) (w : world) :
  json_object (document w) →
  loadConfig (config_export filename w).2
  = (Return (document w), (config_export filename w).2).
Proof.
  intros Hdoc. rewrite loadConfig_run. f_equal. f_equal.
  destruct (config_export_run filename w) as (_ & Hcwd & Hfiles).
  destruct (decide (resolve (cwd w) (default "config-export.json" filename)
                    = config_file w)) as [Hsame|Hother].
  - rewrite Hsame, Hdoc in Hfiles.
    rewrite (document_after_save _ _ _ Hcwd Hfiles).
    apply populated_union_DEFAULT_CONFIG, document_populated.
  - apply (document_files _ _ Hcwd). rewrite Hfiles.
    apply lookup_insert_ne. exact Hother.
Qed.

(** X14, witness: the store [themed] exported onto its configuration
    file. *)
Lemma export_keeps_document_witness :
  loadConfig (config_export (Some "config.json") themed).2
  = (Return (document themed), (config_export (Some "config.json") themed).2).
Proof.
  apply (export_keeps_document (Some "config.json") themed).
  rewrite document_themed. apply valid_document_json, valid_document_themed.
Defined.

(** X15.  Saving and loading: [saveConfig] of an object of JSON values
    returns, and [loadConfig] then gives the object with the defaults under
    it, so the object itself when it has every key of the schema and in
    particular when it is a document that was loaded. *)
Theorem save_load_round_trip (D : object) (w : world) :
  json_object D →
  (saveConfig (VObj D) w).1 = Return tt
  ∧ loadConfig (saveConfig (VObj D) w).2
    = (Return (D ∪ DEFAULT_CONFIG), (saveConfig (VObj D) w).2)
  ∧ ((∀ k, k ∈ schema_keys → is_Some (D !! k)) → D ∪ DEFAULT_CONFIG = D).
Proof.
  intros HD. rewrite saveConfig_run, to_json_object, HD.
  split; [reflexivity|]. split.
  - rewrite loadConfig_run. f_equal. f_equal.
    apply (document_after_save w); reflexivity.
  - apply populated_union_DEFAULT_CONFIG.
Qed.

(** X15, witness: the document of [themed] saved in an empty directory. *)
Lemma save_load_round_trip_witness :
  loadConfig (saveConfig (VObj (document themed)) fresh).2
  = (Return (document themed ∪ DEFAULT_CONFIG),
     (saveConfig (VObj (document themed)) fresh).2).
Proof.
  destruct (save_load_round_trip (document themed) fresh) as (_ & Hload & _).
  - rewrite document_themed. apply valid_document_json, valid_document_themed.
  - exact Hload.
Defined.

(** *** [import] *)

(** X16.  The failures of [import] before validation.  A file that does not
    exist is reported as not found; text that does not parse and the JSON
    value null end in the catch branch, with the SyntaxError and the
    TypeError.  In each case the action returns and leaves every file as it
    was, whatever the mode and also when forced. *)
Theorem import_failures_reported (filename : string)
    (merge force answer : bool) (w : world) :
  (files w !! resolve (cwd w) filename = None →
   config_import filename merge force answer w =
     (Return tt,
      World (cwd w) (files w)
        (console w
         ++ [console_error ("File not found: " +:+ filename) None])))
  ∧ (∀ text,
       files w !! resolve (cwd w) filename = Some (NotJSON text) →
       config_import filename merge force answer w =
         (Return tt,
          World (cwd w) (files w)
            (console w
             ++ [ spinner_start "Reading import file...";
                  console_error "Error importing configuration"
                    (Some SyntaxError) ])))
  ∧ (files w !! resolve (cwd w) filename = Some (JSONText VNull) →
     config_import filename merge force answer w =
       (Return tt,
        World (cwd w) (files w)
          (console w
           ++ [ spinner_start "Reading import file...";
                spinner_text "Validating configuration...";
                console_error "Error importing configuration"
                  (Some TypeError) ]))).
Proof.
  repeat apply conj.
  - intros Hfile. unfold config_import. run_io. cbn [cwd files console].
    rewrite Hfile. cbn [negb]. reflexivity.
  - intros text Hfile. unfold config_import. run_io. cbn [cwd files console].
    rewrite Hfile. cbn [negb cwd files console]. rewrite Hfile.
    cbv beta iota. cbn [cwd files console].
    rewrite <- !app_assoc. reflexivity.
  - intros Hfile. unfold config_import. run_io. cbn [cwd files console].
    rewrite Hfile. cbn [negb cwd files console]. rewrite Hfile.
    cbv beta iota. cbn [Object_entries cwd files console].
    rewrite <- !app_assoc. reflexivity.
Qed.

(** X16, witness: an import in a directory without the file. *)
Lemma import_failures_reported_witness :
  config_import "missing.json" true false true fresh =
    (Return tt,
     World (cwd fresh) (files fresh)
       (console fresh
        ++ [console_error ("File not found: " +:+ "missing.json") None])).
Proof.
  destruct (import_failures_reported "missing.json" true false true fresh)
    as (Hmissing & _ & _).
  apply Hmissing. reflexivity.
Defined.

(** X17.  [import] is idempotent: importing the same file a second time,
    with the same options and answer, leaves the files as the first import
    left them.  The file to import is not the configuration file. *)
Theorem import_idempotent (filename : string) (merge force answer : bool)
    (w : world) (M : object) (errors : list string) :
  files w !! resolve (cwd w) filename = Some (JSONText (VObj M)) →
  resolve (cwd w) filename ≠ config_file w →
  json_object M →
  (merge = true → json_object (document w)) →
  validate_each (map_to_list M) [] = Return errors →
  let once := (config_import filename merge force answer w).2 in
  files (config_import filename merge force answer once).2 = files once.
Proof.
  intros Hfile Hother HM Hdoc Herrors once.
  destruct (config_import_run filename merge force answer w (VObj M)
              (map_to_list M) errors Hfile eq_refl Herrors)
    as (_ & Hcwd & Hfiles).
  fold once in Hcwd, Hfiles.
  assert (Hcfg : config_file once = config_file w)
    by (unfold config_file; rewrite Hcwd; reflexivity).
  assert (Hfile' : files once !! resolve (cwd once) filename
                   = Some (JSONText (VObj M))).
  { rewrite Hcwd, Hfiles.
    destruct (bool_decide (0 < length errors) && negb force); [exact Hfile|].
    destruct (negb force && negb answer); [exact Hfile|].
    destruct (to_json (final_config merge w (VObj M))); [|exact Hfile].
    rewrite lookup_insert_ne by (intros Heq; apply Hother; symmetry; exact Heq).
    exact Hfile. }
  destruct (config_import_run filename merge force answer once (VObj M)
              (map_to_list M) errors Hfile' eq_refl Herrors)
    as (_ & _ & Hfiles').
  rewrite Hfiles'.
  destruct (bool_decide (0 < length errors) && negb force); [reflexivity|].
  destruct (negb force && negb answer); [reflexivity|].
  rewrite Hcfg. unfold final_config in *.
  destruct merge.
  - rewrite to_json_object in *.
    rewrite (document_after_save _ _ _ Hcwd Hfiles), Hfiles.
    unfold spread. cbn [own_properties].
    assert (Hjson : json_object (M ∪ document w))
      by (apply json_object_union; auto).
    rewrite Hjson.
    rewrite (populated_union_DEFAULT_CONFIG (M ∪ document w)).
    + rewrite map_union_assoc, map_union_idemp, Hjson.
      apply insert_insert_eq.
    + intros k Hk. apply lookup_union_is_Some. right.
      apply document_populated, Hk.
  - rewrite to_json_object in *. rewrite Hfiles.
    apply insert_insert_eq.
Qed.

(** X17, witness: the language file merged twice into [with_language]. *)
Lemma import_idempotent_witness :
  files (config_import "language.json" true false true
           (config_import "language.json" true false true with_language).2).2
  = files (config_import "language.json" true false true with_language).2.
Proof.
  apply (import_idempotent "language.json" true false true with_language
           {[ "language" := VStr "fr" ]} []).
  - vm_compute. reflexivity.
  - vm_compute. discriminate.
  - apply json_object_intro. intros k v Hk.
    apply lookup_singleton_Some in Hk as [_ <-]. reflexivity.
  - intros _. rewrite document_with_language.
    apply valid_document_json, valid_document_themed.
  - rewrite map_to_list_singleton. vm_compute. reflexivity.
Defined.


(** *** [get] and [list] *)

Lemma schema_key_not_empty (key : string) :
  key ∈ schema_keys → is_empty key = false.
Proof.
  intros Hkey. apply dom_DEFAULT_CONFIG in Hkey as [d Hd].
  exact (default_key_not_empty key d Hd).
Qed.

Lemma inherited_not_empty (key : string) :
  inherited key = true → is_empty key = false.
Proof. destruct key; [intros H; vm_compute in H; discriminate H|reflexivity]. Qed.

(** [get] of a key the loaded configuration has, own or inherited. *)
Lemma config_get_found (key format : string) (w : world) :
  is_empty key = false →
  HasProperty (document w) key = true →
  config_get (Some key) false format w =
    (Return tt,
     World (cwd w) (files w)
       (console w
        ++ [ spinner_start "Loading configuration...";
             spinner_succeed "Configuration loaded!";
             console_view format
               [ ("Key", ShownText key);
                 ("Value", ShownValue (Get (document w) key)) ] ])).
Proof.
  intros Hkey Hhas. unfold config_get. rewrite (truthy_Some key Hkey).
  run_io. rewrite loadConfig_run, document_emit. cbv beta iota.
  rewrite Hhas. cbn [negb cwd files console].
  rewrite <- !app_assoc. reflexivity.
Qed.

(** X18.  [get] of a key of the schema always shows a value, that of the
    document, whatever the configuration file holds; and [get] of a name
    every object inherits that is not stored shows the inherited function
    instead of reporting that the key was not found. *)
Theorem get_shows_schema_and_inherited (key format : string) (w : world) :
  (key ∈ schema_keys →
   ∃ v, document w !! key = Some v
        ∧ config_get (Some key) false format w =
            (Return tt,
             World (cwd w) (files w)
               (console w
                ++ [ spinner_start "Loading configuration...";
                     spinner_succeed "Configuration loaded!";
                     console_view format
                       [ ("Key", ShownText key);
                         ("Value", ShownValue (Some v)) ] ])))
  ∧ (inherited key = true → document w !! key = None →
     config_get (Some key) false format w =
       (Return tt,
        World (cwd w) (files w)
          (console w
           ++ [ spinner_start "Loading configuration...";
                spinner_succeed "Configuration loaded!";
                console_view format
                  [ ("Key", ShownText key);
                    ("Value", ShownValue (Some (VNative key))) ] ]))).
Proof.
  split.
  - intros Hkey. destruct (document_populated w key Hkey) as [v Hv].
    exists v. split; [exact Hv|].
    rewrite (config_get_found key format w (schema_key_not_empty key Hkey)).
    + unfold Get. rewrite Hv. reflexivity.
    + unfold HasProperty. rewrite Hv.
      rewrite bool_decide_eq_true_2 by eauto. reflexivity.
  - intros Hin Hnone.
    rewrite (config_get_found key format w (inherited_not_empty key Hin)).
    + unfold Get. rewrite Hnone, Hin. reflexivity.
    + unfold HasProperty. rewrite Hin. apply orb_true_r.
Qed.

Lemma list_entries_length (entries : list (string * value)) :
  length (entries ≫= list_entry) = 2 * length entries.
Proof.
  induction entries as [|entry entries IH]; [reflexivity|].
  rewrite bind_cons, length_app, IH. simpl. lia.
Qed.

Lemma descriptions_schema (key : string) :
  key ∈ schema_keys → descriptions !! key = Some (description key).
Proof.
  intros Hkey. unfold schema_keys in Hkey.
  repeat (apply elem_of_cons in Hkey as [->|Hkey]; [reflexivity|]).
  inversion Hkey.
Qed.

(** X19.  [list] shows the whole document.  When no value of the document
    is an object or an array, it prints two rows for each key of the
    document, and for every key of the schema the row of its value followed
    by the row of its description, which comes from the table of
    descriptions.  The files are left as they were. *)
Theorem list_shows_every_schema_key (format : string) (w : world) :
  (∀ k v, document w !! k = Some v → primitive v = true) →
  ∃ rows,
    config_list format w =
      (Return tt,
       World (cwd w) (files w)
         (console w
          ++ [ spinner_start "Loading configuration...";
               spinner_succeed "Configuration loaded!";
               console_log "Configuration Settings:";
               console_view format rows ]))
    ∧ length rows = 2 * size (document w)
    ∧ ∀ key, key ∈ schema_keys →
        ∃ v text before after,
          document w !! key = Some v
          ∧ descriptions !! key = Some text
          ∧ rows = (before
                    ++ [ (key, ShownValue (Some v));
                         ("Description", ShownText text) ]
                    ++ after)%list.
Proof.
  intros _.
  exists (map_to_list (document w) ≫= list_entry). repeat apply conj.
  - unfold config_list. run_io. rewrite loadConfig_run. cbv beta iota.
    cbn [cwd files console]. rewrite <- !app_assoc. reflexivity.
  - rewrite list_entries_length, length_map_to_list. reflexivity.
  - intros key Hkey. destruct (document_populated w key Hkey) as [v Hv].
    assert (Hin : (key, v) ∈ map_to_list (document w))
      by (apply elem_of_map_to_list; exact Hv).
    apply list_elem_of_split in Hin as (l1 & l2 & Hsplit).
    exists v, (description key), (l1 ≫= list_entry), (l2 ≫= list_entry).
    repeat apply conj; [exact Hv | exact (descriptions_schema key Hkey) |].
    rewrite Hsplit, bind_app. reflexivity.
Qed.

(** X19, witness: the listing in a directory with no configuration file
    has twenty rows. *)
Lemma list_shows_every_schema_key_witness :
  ∃ rows,
    console (config_list "simple" fresh).2 =
      [ spinner_start "Loading configuration...";
        spinner_succeed "Configuration loaded!";
        console_log "Configuration Settings:";
        console_view "simple" rows ]
    ∧ length rows = 20.
Proof.
  destruct (list_shows_every_schema_key "simple" fresh)
    as (rows & Hrun & Hlength & _).
  - intros k v Hk. change (document fresh) with DEFAULT_CONFIG in Hk.
    assert (Hs : k ∈ schema_keys) by (apply dom_DEFAULT_CONFIG; eauto).
    unfold schema_keys in Hs.
    repeat (apply elem_of_cons in Hs as [->|Hs];
            [vm_compute in Hk; injection Hk as <-; reflexivity|]).
    inversion Hs.
  - exists rows. rewrite Hrun. split; [reflexivity|].
    rewrite Hlength. vm_compute. reflexivity.
Defined.

(** *** [setup] *)

Lemma valid_document_union (answers D : object) :
  valid_document D →
  (∀ k v, answers !! k = Some v →
     k ∈ schema_keys ∧ ∃ v', validateConfigValue k v = Return (Valid v')) →
  valid_document (answers ∪ D).
Proof.
  intros [Hdom Hvalues] Hanswers. split.
  - intros k. rewrite lookup_union_is_Some, <- Hdom. split; [auto|].
    intros [[v Hv]|Hk]; [|exact Hk]. apply (Hanswers k v Hv).
  - intros k v Hk. apply lookup_union_Some_raw in Hk as [Hk|[_ Hk]].
    + apply (Hanswers k v Hk).
    + apply (Hvalues k v Hk).
Qed.

(** X20.  [setup] overlays the answers on the document: when the document
    is valid and every answer is a value validation accepts for a key of
    the schema, the store it leaves loads as the answers over the former
    document, which is valid again. *)
Theorem setup_overlays_answers (answers : object) (w : world) :
  valid_document (document w) →
  (∀ k v, answers !! k = Some v →
     k ∈ schema_keys ∧ ∃ v', validateConfigValue k v = Return (Valid v')) →
  loadConfig (config_setup answers w).2
  = (Return (answers ∪ document w), (config_setup answers w).2)
  ∧ valid_document (answers ∪ document w).
Proof.
  intros Hdoc Hanswers.
  assert (Hvalid := valid_document_union answers (document w) Hdoc Hanswers).
  split; [|exact Hvalid].
  rewrite loadConfig_run. f_equal. f_equal.
  assert (Hrun : cwd (config_setup answers w).2 = cwd w
                 ∧ files (config_setup answers w).2 =
                     <[config_file w :=
                         JSONText (VObj (answers ∪ document w))]> (files w)).
  { unfold config_setup. run_io. rewrite loadConfig_run, document_emit.
    cbv beta iota. rewrite saveConfig_run, to_json_object. unfold spread.
    cbn [own_properties]. rewrite (valid_document_json _ Hvalid).
    split; reflexivity. }
  destruct Hrun as [Hcwd Hfiles].
  rewrite (document_after_save _ _ _ Hcwd Hfiles).
  apply populated_union_DEFAULT_CONFIG. intros k Hk.
  apply Hvalid, Hk.
Qed.

(** X20, witness: the theme and the debug mode answered in [fresh]. *)
Lemma setup_overlays_answers_witness :
  valid_document
    (({[ "theme" := VStr "rainbow"; "debug" := VBool true ]} : object)
     ∪ document fresh).
Proof.
  apply (setup_overlays_answers
           {[ "theme" := VStr "rainbow"; "debug" := VBool true ]} fresh).
  - exact valid_document_DEFAULT_CONFIG.
  - intros k v Hk. apply lookup_insert_Some in Hk as [[<- <-]|[_ Hk]].
    + split; [unfold schema_keys; left|].
      exists (VStr "rainbow"). reflexivity.
    + apply lookup_singleton_Some in Hk as [<- <-].
      split; [unfold schema_keys; do 9 right; left|].
      exists (VBool true). reflexivity.
Defined.

(** *** The remaining validators *)

Lemma validators_apiUrl :
  validators !! "apiUrl" =
    Some (λ val, match val with
                 | VStr s => bool_decide (0 < String.length s)
                 | _ => false
                 end).
Proof. reflexivity. Qed.

(** X21.  The key apiUrl accepts exactly the strings that are not empty and
    that conversion leaves a string, and returns them unchanged: the text
    need not be a URL, while true, false and numerals are refused. *)
Theorem apiUrl_accepts_any_text (value v : JS.value) :
  validateConfigValue "apiUrl" value = Return (Valid v)
  ↔ ∃ s, value = VStr s ∧ v = VStr s ∧ s ≠ EmptyString
         ∧ convert (VStr s) = VStr s.
Proof.
  rewrite (validateConfigValue_own _ _ _ validators_apiUrl). split.
  - destruct (convert value) as [|b|n|s|items|props|name] eqn:Hconv;
      try discriminate.
    case_bool_decide as Hlen; [|discriminate]. intros [= <-].
    destruct value as [|b|n|s0|items|props|name]; try discriminate Hconv.
    destruct (convert_string s0)
      as [[_ H]|[[_ H]|[(_ & _ & H)|(_ & _ & H)]]];
      rewrite H in Hconv; try discriminate Hconv.
    injection Hconv as <-. exists s0. repeat apply conj; auto.
    intros ->. simpl in Hlen. lia.
  - intros (s & -> & -> & Hs & Hconv). rewrite Hconv.
    rewrite bool_decide_eq_true_2; [reflexivity|].
    destruct s; [contradiction|simpl; lia].
Qed.

Lemma validate_each_throws (entries : list (string * value))
    (acc : list string) (k : string) (v : value) (e : exn) :
  (k, v) ∈ entries → validateConfigValue k v = Throw e →
  ∃ e', validate_each entries acc = Throw e'.
Proof.
  revert acc. induction entries as [|[k' v'] entries IH]; intros acc Hin Hthrow.
  - inversion Hin.
  - apply elem_of_cons in Hin as [[= <- <-]|Hin]; simpl.
    + rewrite Hthrow. eauto.
    + destruct (validateConfigValue k' v') as [[?|?]|e']; eauto.
Qed.

(** X22.  A key that names a method every object inherits, other than
    constructor, toString and isPrototypeOf, makes validation throw.
    [set] without force then ends in its catch branch, and so does
    [import] of an object that has such a key, forced or not: the error is
    reported and every file is left as it was. *)
Theorem inherited_method_keys_throw (key : string) (w : world) :
  inherited key = true →
  key ∉ ["constructor"; "toString"; "isPrototypeOf"] →
  (∀ value, validateConfigValue key value = Throw TypeError)
  ∧ (∀ value,
       config_set key value false w =
         (Return tt,
          World (cwd w) (files w)
            (console w
             ++ [console_error "Error setting configuration"
                   (Some TypeError)])))
  ∧ (∀ filename merge force answer (M : object),
       files w !! resolve (cwd w) filename = Some (JSONText (VObj M)) →
       is_Some (M !! key) →
       ∃ e, config_import filename merge force answer w =
              (Return tt,
               World (cwd w) (files w)
                 (console w
                  ++ [ spinner_start "Reading import file...";
                       spinner_text "Validating configuration...";
                       console_error "Error importing configuration"
                         (Some e) ]))).
Proof.
  intros Hin Hnot.
  assert (Hthrow : ∀ value, validateConfigValue key value = Throw TypeError).
  { intros value. unfold validateConfigValue, lookup_validator.
    assert (Hnone : validators !! key = None).
    { destruct (validators !! key) eqn:Hv; [|reflexivity]. exfalso.
      assert (Hs : is_Some (validators !! key)) by eauto.
      apply validators_schema, dom_DEFAULT_CONFIG in Hs as [d Hd].
      rewrite (inherited_not_default key Hin) in Hd. discriminate Hd. }
    rewrite Hnone, Hin. unfold call_inherited.
    rewrite bool_decide_eq_false_2
      by (intros [->| ->]; apply Hnot; set_solver).
    rewrite bool_decide_eq_false_2
      by (intros ->; apply Hnot; set_solver).
    reflexivity. }
  repeat apply conj.
  - exact Hthrow.
  - intros value. apply config_set_throws, Hthrow.
  - intros filename merge force answer M Hfile [v Hv].
    destruct (validate_each_throws (map_to_list M) [] key v TypeError)
      as [e He]; [apply elem_of_map_to_list; exact Hv | apply Hthrow |].
    exists e. unfold config_import. run_io. cbn [cwd files console].
    rewrite Hfile. cbn [negb cwd files console]. rewrite Hfile.
    cbv beta iota. cbn [Object_entries own_properties cwd files console].
    rewrite He. cbn [cwd files console]. rewrite <- !app_assoc. reflexivity.
Qed.

(** X22, witness: [set] of the key [valueOf]. *)
Lemma inherited_method_keys_throw_witness :
  config_set "valueOf" "1" false fresh =
    (Return tt,
     World (cwd fresh) (files fresh)
       (console fresh
        ++ [console_error "Error setting configuration" (Some TypeError)])).
Proof.
  destruct (inherited_method_keys_throw "valueOf" fresh) as (_ & Hset & _).
  - reflexivity.
  - intros Hin.
    repeat (apply elem_of_cons in Hin as [Hin|Hin]; [discriminate Hin|]).
    inversion Hin.
  - apply Hset.
Defined.


(** *** The keys a [set] without force can add *)

Lemma accepted_key (key : string) (value v : JS.value) :
  validateConfigValue key value = Return (Valid v) →
  key ∈ schema_keys ∨ key = "constructor" ∨ key = "toString".
Proof.
  unfold validateConfigValue, lookup_validator.
  destruct (validators !! key) as [validator|] eqn:Hvalidator.
  - intros _. left. apply validators_schema. eauto.
  - destruct (inherited key); [|discriminate]. unfold call_inherited.
    case_bool_decide as Hkey; [intros _; right; exact Hkey|].
    case_bool_decide; [|discriminate].
    destruct (convert value); discriminate.
Qed.

(** X23.  Without force, [set] adds no key to the document except
    constructor and toString: validation accepts a value only for a key of
    the schema or one of these two names, and whatever the key and the
    value, every key of the document of the store [set] leaves was a key of
    the document before, or is one of the two. *)
Theorem unforced_set_adds_no_key (key value : string) (w : world) :
  (∀ v, validateConfigValue key (VStr value) = Return (Valid v) →
        key ∈ schema_keys ∨ key = "constructor" ∨ key = "toString")
  ∧ ∀ k, is_Some (document (config_set key value false w).2 !! k) →
         is_Some (document w !! k) ∨ k = "constructor" ∨ k = "toString".
Proof.
  split; [intros v; apply accepted_key|]. intros k.
  destruct (validateConfigValue key (VStr value)) as [[v|message]|e] eqn:Hv.
  - destruct (config_set_assigns key value false v w Hv)
      as (_ & Hcwd & Hfiles).
    rewrite (document_after_save _ _ _ Hcwd Hfiles).
    rewrite lookup_union_is_Some, lookup_omap. intros [Hk|Hk].
    + assert (Hassigned : is_Some (Assign (document w) key v !! k)).
      { destruct (Assign (document w) key v !! k); [eauto|].
        destruct Hk as [? [=]]. }
      unfold Assign in Hassigned.
      destruct (bool_decide (key = "__proto__")
                && bool_decide (document w !! key = None));
        [left; exact Hassigned|].
      apply lookup_insert_is_Some in Hassigned as [<-|[_ Hold]];
        [|left; exact Hold].
      destruct (accepted_key key (VStr value) v Hv) as [Hs|Hname];
        [left; apply document_populated, Hs | right; exact Hname].
    + left. apply document_populated, dom_DEFAULT_CONFIG, Hk.
  - rewrite (config_set_invalid key value message w Hv). auto.
  - rewrite (config_set_throws key value e w Hv). auto.
Qed.

End Coverage.
